(** * hupper.ipc: framing, duplex channel, spawner, process group, termios guard

    A shallow embedding of [src/hupper/ipc.py].  Python objects are values of
    [pyobj], exceptions are values of [exn], and a call that may raise returns
    a [result].  Code that reads a stream threads the unread bytes through a
    small state-and-exception monad [Py]. *)

From Stdlib Require Import ZArith Lia.
From Stdlib Require Import Strings.Byte Strings.Ascii.
From stdpp Require Import gmap strings list pretty.
From Equations Require Import Equations.

Local Open Scope Z_scope.
#[local] Set Warnings "-register-all".

(** ** Bytes, exceptions, results *)

Abbreviation bytes := (list byte).

(** [len(b)] as a Python integer. *)
Definition len {A} (l : list A) : Z := Z.of_nat (length l).

(** The exception classes the module raises or lets through.  In Python 3
    [IOError] is the class [OSError]; [winerror] is the attribute that
    [ProcessGroup.add_child] inspects and is [None] away from Windows.
    [OverflowError] and [MemoryError] are what a read of too many bytes
    gives. *)
Inductive exn :=
| EOFError
| OSError (winerror : option Z) (msg : string)
| struct_error
| ValueError
| TypeError
| KeyError
| AttributeError
| ImportError
| PickleError
| termios_error
| SystemExit (code : Z)
| OverflowError
| MemoryError.

Definition IOError (msg : string) : exn := OSError None msg.

(** [SystemExit] derives from [BaseException] only. *)
Definition is_Exception (e : exn) : bool :=
  match e with SystemExit _ => false | _ => true end.

Inductive result (A : Type) :=
| Ok (a : A)
| Raise (e : exn).
Arguments Ok {A} a.
Arguments Raise {A} e.

(** ** The stream monad: state [S], exceptions [exn] *)

Definition Py (S A : Type) : Type := S -> result A * S.

Definition ret {S A} (a : A) : Py S A := fun s => (Ok a, s).
Definition raise {S A} (e : exn) : Py S A := fun s => (Raise e, s).
Definition bind {S A B} (m : Py S A) (f : A -> Py S B) : Py S B :=
  fun s => match m s with
           | (Ok a, s') => f a s'
           | (Raise e, s') => (Raise e, s')
           end.
Definition lift {S A} (r : result A) : Py S A := fun s => (r, s).
Definition get {S} : Py S S := fun s => (Ok s, s).
Definition modify {S} (f : S -> S) : Py S unit := fun s => (Ok tt, f s).

(** [try: m  except <the exceptions h is defined on> as ex: h ex] *)
Definition try_except {S A} (m : Py S A) (h : exn -> option (Py S A)) : Py S A :=
  fun s => match m s with
           | (Ok a, s') => (Ok a, s')
           | (Raise e, s') =>
               match h e with
               | Some k => k s'
               | None => (Raise e, s')
               end
           end.

Notation "x <- m ;; k" := (bind m (fun x => k))
  (at level 100, m at next level, right associativity).

(** ** struct: the format ['Q'] *)

(** ['Q'] is an unsigned 8-byte integer in the byte order of the host. *)
Inductive byteorder := LittleEndian | BigEndian.

Class Host := { sys_byteorder : byteorder }.

Definition byte_of_Z (z : Z) : byte :=
  match Byte.of_N (Z.to_N (z mod 256)) with
  | Some b => b
  | None => x00
  end.

Definition Z_of_byte (b : byte) : Z := Z.of_N (Byte.to_N b).

(** Least significant byte first. *)
Fixpoint le_split (n : nat) (z : Z) : bytes :=
  match n with
  | O => []
  | S n' => byte_of_Z z :: le_split n' (z / 256)
  end.

Fixpoint le_combine (l : bytes) : Z :=
  match l with
  | [] => 0
  | b :: l' => Z_of_byte b + 256 * le_combine l'
  end.

Definition in_order (o : byteorder) (l : bytes) : bytes :=
  match o with
  | LittleEndian => l
  | BigEndian => rev l
  end.

(** [struct.pack('Q', n)]: [struct.error] when [n] does not fit 64 bits. *)
Definition pack_Q `{Host} (n : Z) : result bytes :=
  if (0 <=? n) && (n <? 2 ^ 64)
  then Ok (in_order sys_byteorder (le_split 8 n))
  else Raise struct_error.

(** [struct.unpack('Q', chunk)[0]]: [struct.error] unless [chunk] has
    exactly 8 bytes. *)
Definition unpack_Q `{Host} (chunk : bytes) : result Z :=
  if len chunk =? 8
  then Ok (le_combine (in_order sys_byteorder chunk))
  else Raise struct_error.

(** ** Python objects and pickle *)

(** The objects that travel over the pipes.  Dictionaries are kept in
    insertion order; their keys are strings, as in keyword arguments and in
    the preparation data. *)
Inductive pyobj :=
| PyNone
| PyBool (b : bool)
| PyInt (z : Z)
| PyStr (s : string)
| PyList (l : list pyobj)
| PyDict (d : list (string * pyobj)).

(** [x is None] *)
Definition is_None (x : pyobj) : bool :=
  match x with PyNone => true | _ => false end.

(** The serializer imported from [compat].  [load] reads one pickle off a
    stream and leaves what follows it. *)
Class Pickle := {
  dumps : pyobj -> result bytes;
  loads : bytes -> result pyobj;
  load : Py bytes pyobj
}.

(** ** Buffered streams

    [self.r] is the buffered reader that [os.fdopen(fd, 'rb')] returns.  It is
    modelled by the bytes that are still to be read before end of file: the
    writing end has been closed.  [read(n)] then returns the next [n] bytes,
    and fewer only when end of file comes first.  This is [read] on a host
    that grants every size; the sizes that a host refuses are in [Limited],
    below. *)
Definition read (n : Z) : Py bytes bytes :=
  fun r => (Ok (take (Z.to_nat n) r), drop (Z.to_nat n) r).

(** [self.w], from [os.fdopen(fd, 'wb')]: bytes written since the last flush
    and bytes handed to the pipe.  The peer keeps its reading end open and
    takes what is handed to the pipe. *)
Record writer := mkWriter { pending : bytes; flushed : bytes }.

Definition write (data : bytes) : Py writer unit :=
  fun w => (Ok tt, mkWriter (pending w ++ data) (flushed w)).

Definition flush : Py writer unit :=
  fun w => (Ok tt, mkWriter [] (flushed w ++ pending w)).

(** ** Connection._recv_packet *)

(** The [while remaining > 0] loop; [buf] is the [BytesIO] buffer and [s]
    the stream. *)
#[local] Unset Equations With Funext.
Equations? recv_payload (size remaining : Z) (buf : bytes) (s : bytes)
  : result bytes * bytes by wf (Z.to_nat remaining) lt :=
recv_payload size remaining buf s with decide (remaining > 0) := {
  | right _ => ret buf s
  | left Hpos with read remaining s := {
    | (Raise e, s') => (Raise e, s')
    | (Ok chunk, s') with decide (len chunk = 0) := {
      | left _ =>
          if decide (remaining = size)
          then raise EOFError s'
          else raise (IOError "got end of file during message") s'
      | right Hn =>
          recv_payload size (remaining - len chunk) (buf ++ chunk) s' } } }.
Proof. unfold len in *. lia. Qed.

Definition _recv_packet `{Host} `{Pickle} : Py bytes pyobj :=
  chunk <- read 8 ;;
  if decide (chunk = [])
  then ret PyNone
  else
    size <- lift (unpack_Q chunk) ;;
    data <- recv_payload size size [] ;;
    lift (loads data).

(** ** The activated Connection

    [activate] gives a Connection its streams [r] and [w], its
    [reader_queue] and its [reader_thread], which runs [_read_loop].  The
    closed sentinel is [None], so the queue holds [pyobj]s. *)
Inductive thread :=
| Running
| Finished
| Died (e : exn).

Record Active := mkActive {
  r : bytes;
  w : writer;
  reader_queue : list pyobj;
  reader_thread : thread
}.

Definition on_w {A} (m : Py writer A) : Py Active A :=
  fun c => let '(a, w') := m (w c) in
           (a, mkActive (r c) w' (reader_queue c) (reader_thread c)).

(** [self.reader_queue.put(x)] *)
Definition put (x : pyobj) (q : list pyobj) : list pyobj := q ++ [x].

(** One turn of [_read_loop]: a call of [_recv_packet] and what follows it.
    [break] and the handler of [EOFError] both lead to the final
    [reader_queue.put(None)]; any other exception leaves the function. *)
Definition read_loop_turn `{Host} `{Pickle} (c : Active) : Active :=
  match _recv_packet (r c) with
  | (Ok packet, r') =>
      if is_None packet
      then mkActive r' (w c) (put PyNone (reader_queue c)) Finished
      else mkActive r' (w c) (put packet (reader_queue c)) Running
  | (Raise EOFError, r') =>
      mkActive r' (w c) (put PyNone (reader_queue c)) Finished
  | (Raise e, r') =>
      mkActive r' (w c) (reader_queue c) (Died e)
  end.

Fixpoint read_loop_turns `{Host} `{Pickle} (n : nat) (c : Active) : Active :=
  match n with
  | O => c
  | S n' =>
      match reader_thread c with
      | Running => read_loop_turns n' (read_loop_turn c)
      | _ => c
      end
  end.

(** [_read_loop] run until the thread ends.  A turn that goes on has taken a
    whole frame off the stream, so there are no more turns than unread
    bytes, plus the last one. *)
Definition _read_loop `{Host} `{Pickle} (c : Active) : Active :=
  read_loop_turns (S (length (r c))) c.

(** ** Connection.send

    The lock makes the two writes and the flush one step for the other
    threads; here there are none in between. *)
Definition send `{Host} `{Pickle} (value : pyobj) : Py Active Z :=
  data <- lift (dumps value) ;;
  prefix <- lift (pack_Q (len data)) ;;
  _ <- on_w (write prefix) ;;
  _ <- on_w (write data) ;;
  _ <- on_w flush ;;
  ret (len data + 8).

(** ** Connection.recv, with [timeout=None]

    [Queue.get(block=True)] returns the oldest item.  On an empty queue it
    waits for the reader thread to put one; when that thread has ended,
    nothing will ever be put and the call does not return. *)
Inductive got :=
| Returns (packet : pyobj)
| Blocks.

Definition recv `{Host} `{Pickle} (c : Active) : got * Active :=
  let c' := match reader_queue c, reader_thread c with
            | [], Running => read_loop_turn c
            | _, _ => c
            end in
  match reader_queue c' with
  | packet :: q => (Returns packet, mkActive (r c') (w c') q (reader_thread c'))
  | [] => (Blocks, c')
  end.

(** The connection without the oldest item of its queue. *)
Definition dequeued (c : Active) : Active :=
  mkActive (r c) (w c) (tail (reader_queue c)) (reader_thread c).

(** The outcomes of [n] calls of [recv] in a row. *)
Fixpoint recvs `{Host} `{Pickle} (n : nat) (c : Active) : list got :=
  match n with
  | O => []
  | S n' => let '(x, c') := recv c in x :: recvs n' c'
  end.

(** [for v in values: send(v)], with what the calls return. *)
Fixpoint sends `{Host} `{Pickle} (values : list pyobj) : Py Active (list Z) :=
  match values with
  | [] => ret []
  | v :: vs => n <- send v ;; ns <- sends vs ;; ret (n :: ns)
  end.

(** ** The limits of one read

    [self.r.read(n)] makes the bytes object of its result before it takes
    anything off the stream.  The interpreter refuses a size that no bytes
    object can have, with [OverflowError], and the allocator one for which
    it has no room, with [MemoryError]; the stream is then as it was.  Which
    sizes are refused is the affair of the host.  [_recv_packet] asks for as
    many bytes as the prefix announces, whatever the number, so that here
    are [_recv_packet] and [_read_loop] over such a [read].  They are the
    functions above as long as no size that is asked for is refused. *)
Module Limited.

Inductive refusal := TooLarge | NoMemory.

Definition refusal_error (x : refusal) : exn :=
  match x with
  | TooLarge => OverflowError
  | NoMemory => MemoryError
  end.

Class Memory := { refuses : Z -> option refusal }.

Definition read `{Memory} (n : Z) : Py bytes bytes :=
  fun r => match refuses n with
           | Some x => (Raise (refusal_error x), r)
           | None => (Ok (take (Z.to_nat n) r), drop (Z.to_nat n) r)
           end.

Equations? recv_payload {M : Memory} (size remaining : Z) (buf : bytes)
    (s : bytes) : result bytes * bytes by wf (Z.to_nat remaining) lt :=
recv_payload size remaining buf s with decide (remaining > 0) := {
  | right _ => ret buf s
  | left Hpos with read remaining s := {
    | (Raise e, s') => (Raise e, s')
    | (Ok chunk, s') with decide (len chunk = 0) := {
      | left _ =>
          if decide (remaining = size)
          then raise EOFError s'
          else raise (IOError "got end of file during message") s'
      | right Hn =>
          recv_payload size (remaining - len chunk) (buf ++ chunk) s' } } }.
Proof. unfold len in *. lia. Qed.

Definition _recv_packet `{Host} `{Pickle} `{Memory} : Py bytes pyobj :=
  chunk <- read 8 ;;
  if decide (chunk = [])
  then ret PyNone
  else
    size <- lift (unpack_Q chunk) ;;
    data <- recv_payload size size [] ;;
    lift (loads data).

Definition read_loop_turn `{Host} `{Pickle} `{Memory} (c : Active) : Active :=
  match _recv_packet (r c) with
  | (Ok packet, r') =>
      if is_None packet
      then mkActive r' (w c) (put PyNone (reader_queue c)) Finished
      else mkActive r' (w c) (put packet (reader_queue c)) Running
  | (Raise EOFError, r') =>
      mkActive r' (w c) (put PyNone (reader_queue c)) Finished
  | (Raise e, r') =>
      mkActive r' (w c) (reader_queue c) (Died e)
  end.

Fixpoint read_loop_turns `{Host} `{Pickle} `{Memory} (n : nat) (c : Active)
    : Active :=
  match n with
  | O => c
  | S n' =>
      match reader_thread c with
      | Running => read_loop_turns n' (read_loop_turn c)
      | _ => c
      end
  end.

(** As above: a turn that goes on has taken a whole frame off the stream. *)
Definition _read_loop `{Host} `{Pickle} `{Memory} (c : Active) : Active :=
  read_loop_turns (S (length (r c))) c.

End Limited.

(** ** The operating system: descriptors, pipes, terminals *)

(** What [termios.tcgetattr] returns:
    [[iflag, oflag, cflag, lflag, ispeed, ospeed, cc]]. *)
Record termios_attr := mkAttr {
  iflag : Z; oflag : Z; cflag : Z; lflag : Z;
  ispeed : Z; ospeed : Z; cc : list Z
}.

(** A terminal: its line discipline, the input received and not yet read,
    the output written and not yet transmitted. *)
Record tty := mkTty {
  attr : termios_attr;
  input : bytes;
  output : bytes
}.

Inductive file :=
| Terminal (dev : nat)
| PipeReader (p : nat)
| PipeWriter (p : nat)
| Directory
| Other.

Record descriptor := mkDesc { file_of : file; inheritable : bool }.

(** [nofile] is the limit on the number of a descriptor. *)
Record kernel := mkKernel {
  fdtab : gmap nat descriptor;
  ttys : gmap nat tty;
  pipes : gmap nat bytes;
  nofile : nat
}.

Definition set_fdtab (f : gmap nat descriptor -> gmap nat descriptor)
    (k : kernel) : kernel :=
  mkKernel (f (fdtab k)) (ttys k) (pipes k) (nofile k).
Definition set_ttys (f : gmap nat tty -> gmap nat tty) (k : kernel) : kernel :=
  mkKernel (fdtab k) (f (ttys k)) (pipes k) (nofile k).
Definition set_pipes (f : gmap nat bytes -> gmap nat bytes) (k : kernel) : kernel :=
  mkKernel (fdtab k) (ttys k) (f (pipes k)) (nofile k).

Definition EBADF : exn := OSError None "Bad file descriptor".
Definition EMFILE : exn := OSError None "Too many open files".
Definition EISDIR : exn := OSError None "Is a directory".

(** The lowest descriptor that is not open, below the limit. *)
Definition lowest_free (k : kernel) : option nat :=
  List.find (fun fd => bool_decide (fdtab k !! fd = None)) (seq 0 (nofile k)).

Definition alloc_fd (f : file) : Py kernel nat :=
  fun k => match lowest_free k with
           | Some fd => (Ok fd, set_fdtab <[fd := mkDesc f false]> k)
           | None => (Raise EMFILE, k)
           end.

(** [os.close(fd)] *)
Definition os_close (fd : nat) : Py kernel unit :=
  fun k => match fdtab k !! fd with
           | Some _ => (Ok tt, set_fdtab (delete fd) k)
           | None => (Raise EBADF, k)
           end.

(** [os.pipe()]: a new pipe and two new descriptors, the reading end first.
    Since Python 3.4 they are not inheritable.  When the second descriptor
    cannot be had the first is released. *)
Definition os_pipe : Py kernel (nat * nat) :=
  k <- get ;;
  let p := fresh (dom (pipes k)) in
  rfd <- alloc_fd (PipeReader p) ;;
  wfd <- try_except (alloc_fd (PipeWriter p))
           (fun e => Some (_ <- os_close rfd ;; raise e)) ;;
  _ <- modify (set_pipes <[p := []]>) ;;
  ret (rfd, wfd).

(** [os.get_inheritable(fd)], [os.set_inheritable(fd, flag)] *)
Definition os_get_inheritable (fd : nat) : Py kernel bool :=
  fun k => match fdtab k !! fd with
           | Some d => (Ok (inheritable d), k)
           | None => (Raise EBADF, k)
           end.

Definition os_set_inheritable (fd : nat) (flag : bool) : Py kernel unit :=
  fun k => match fdtab k !! fd with
           | Some d => (Ok tt, set_fdtab <[fd := mkDesc (file_of d) flag]> k)
           | None => (Raise EBADF, k)
           end.

(** The terminal behind a descriptor, if it is one. *)
Definition tty_of (k : kernel) (fd : nat) : option (nat * tty) :=
  match fdtab k !! fd with
  | Some (mkDesc (Terminal dev) _) =>
      match ttys k !! dev with
      | Some t => Some (dev, t)
      | None => None
      end
  | _ => None
  end.

(** [os.isatty(fd)]: never raises. *)
Definition os_isatty (fd : nat) : Py kernel bool :=
  fun k => (Ok (bool_decide (is_Some (tty_of k fd))), k).

Inductive queue_selector := TCIFLUSH | TCOFLUSH | TCIOFLUSH.
Inductive when := TCSANOW | TCSADRAIN | TCSAFLUSH.

Definition tcgetattr (fd : nat) : Py kernel termios_attr :=
  fun k => match tty_of k fd with
           | Some (_, t) => (Ok (attr t), k)
           | None => (Raise termios_error, k)
           end.

(** [termios.tcflush(fd, queue)]: discards queued data. *)
Definition tcflush (fd : nat) (q : queue_selector) : Py kernel unit :=
  fun k => match tty_of k fd with
           | Some (dev, t) =>
               let t' := match q with
                         | TCIFLUSH => mkTty (attr t) [] (output t)
                         | TCOFLUSH => mkTty (attr t) (input t) []
                         | TCIOFLUSH => mkTty (attr t) [] []
                         end in
               (Ok tt, set_ttys <[dev := t']> k)
           | None => (Raise termios_error, k)
           end.

(** [termios.tcsetattr(fd, when, attributes)]: [TCSADRAIN] first lets the
    queued output go out, [TCSAFLUSH] also discards the queued input. *)
Definition tcsetattr (fd : nat) (wh : when) (a : termios_attr) : Py kernel unit :=
  fun k => match tty_of k fd with
           | Some (dev, t) =>
               let t' := match wh with
                         | TCSANOW => mkTty a (input t) (output t)
                         | TCSADRAIN => mkTty a (input t) []
                         | TCSAFLUSH => mkTty a [] []
                         end in
               (Ok tt, set_ttys <[dev := t']> k)
           | None => (Raise termios_error, k)
           end.

(** ** The platform branches of the module *)

(** The [else] branch of [if WIN]. *)
Module Posix.

Record ProcessGroup := mkProcessGroup { }.

(** nothing to do on *nix *)
Definition add_child {S} (self : ProcessGroup) (pid : Z) : Py S pyobj :=
  ret PyNone.

(** The state is the attribute list, or [None] when the function falls off
    its end. *)
Definition snapshot_termios (fd : nat) : Py kernel (option termios_attr) :=
  isatty <- os_isatty fd ;;
  if (isatty : bool)
  then state <- tcgetattr fd ;; ret (Some state)
  else ret None.

(** [and state]: an attribute list has seven items and is true, [None] is
    false. *)
Definition restore_termios (fd : nat) (state : option termios_attr)
    : Py kernel unit :=
  isatty <- os_isatty fd ;;
  match (isatty : bool), state with
  | true, Some st =>
      _ <- tcflush fd TCIOFLUSH ;;
      tcsetattr fd TCSANOW st
  | _, _ => ret tt
  end.

Definition get_handle (fd : nat) : nat := fd.

Definition open_handle (handle : nat) (mode : string) : nat := handle.

End Posix.

(** The [if WIN] branch.  [winapi] is a module of the package that wraps the
    system calls; its two functions used by [add_child] are taken as they
    come, acting on a state [W] of the system. *)
Module Windows.

Class winapi (W HANDLE : Type) := {
  PROCESS_ALL_ACCESS : Z;
  OpenProcess : Z -> bool -> Z -> Py W HANDLE;
  AssignProcessToJobObject : HANDLE -> HANDLE -> Py W pyobj
}.

Record ProcessGroup (HANDLE : Type) := mkProcessGroup { h_job : HANDLE }.
Arguments h_job {HANDLE} _.

Definition add_child {W HANDLE} `{winapi W HANDLE}
    (self : ProcessGroup HANDLE) (pid : Z) : Py W pyobj :=
  hp <- OpenProcess PROCESS_ALL_ACCESS false pid ;;
  try_except (AssignProcessToJobObject (h_job self) hp)
    (fun ex => match ex with
               | OSError winerror _ =>
                   Some (if decide (winerror = Some 5)
                         then ret PyNone
                         else raise ex)
               | _ => None
               end).

Definition snapshot_termios {S} (fd : nat) : Py S (option termios_attr) :=
  ret None.

Definition restore_termios {S} (fd : nat) (state : option termios_attr)
    : Py S unit :=
  ret tt.

End Windows.

(** ** Pipe and Connection *)

Record Connection := mkConnection {
  r_fd : nat;
  w_fd : nat;
  remote_r_fd : nat;
  remote_w_fd : nat
}.

Definition Pipe : Py kernel (Connection * Connection) :=
  c2p <- os_pipe ;; let '(c2pr_fd, c2pw_fd) := c2p in
  p2c <- os_pipe ;; let '(p2cr_fd, p2cw_fd) := p2c in
  let c1 := mkConnection c2pr_fd p2cw_fd p2cr_fd c2pw_fd in
  let c2 := mkConnection p2cr_fd c2pw_fd c2pr_fd p2cw_fd in
  ret (c1, c2).

(** [close_fd(fd, raises)]; [fd] may be [None]. *)
Definition close_fd (fd : option nat) (raises : bool) : Py kernel unit :=
  match fd with
  | Some fd =>
      try_except (os_close fd)
        (fun e => if is_Exception e
                  then Some (if raises then raise e else ret tt)
                  else None)
  | None => ret tt
  end.

(** [os.fdopen(fd, mode)], in the modes ['rb'] and ['wb']: it needs an
    open descriptor and refuses a directory ([IsADirectoryError], a class
    of [OSError]); the descriptor stays as it is in both cases.  The access
    mode of the descriptor is not looked at before the first read or
    write. *)
Definition os_fdopen (fd : nat) : Py kernel nat :=
  fun k => match fdtab k !! fd with
           | Some (mkDesc Directory _) => (Raise EISDIR, k)
           | Some _ => (Ok fd, k)
           | None => (Raise EBADF, k)
           end.

(** [activate]: [inbound] is what the peer sends into [r_fd] before it
    closes its end; the new thread has not run yet. *)
Definition activate (self : Connection) (inbound : bytes) : Py kernel Active :=
  _ <- close_fd (Some (remote_r_fd self)) false ;;
  _ <- close_fd (Some (remote_w_fd self)) false ;;
  _ <- os_fdopen (r_fd self) ;;
  _ <- os_fdopen (w_fd self) ;;
  ret (mkActive inbound (mkWriter [] []) [] Running).

(** [Connection.__getstate__] and [Connection.__setstate__], with the POSIX
    [get_handle] and [open_handle].  The state is the dictionary of the four
    handles; [state[key]] raises [KeyError] when the key is missing. *)
Definition __getstate__ (self : Connection) : list (string * nat) :=
  [("r_handle", Posix.get_handle (r_fd self));
   ("w_handle", Posix.get_handle (w_fd self));
   ("remote_r_handle", Posix.get_handle (remote_r_fd self));
   ("remote_w_handle", Posix.get_handle (remote_w_fd self))]%string.

Fixpoint state_item (key : string) (state : list (string * nat)) : result nat :=
  match state with
  | [] => Raise KeyError
  | (k, v) :: state' => if String.eqb k key then Ok v else state_item key state'
  end.

Definition and_then {A B} (x : result A) (f : A -> result B) : result B :=
  match x with
  | Ok a => f a
  | Raise e => Raise e
  end.

Definition __setstate__ (state : list (string * nat)) : result Connection :=
  and_then (state_item "r_handle" state) (fun r_handle =>
  and_then (state_item "w_handle" state) (fun w_handle =>
  and_then (state_item "remote_r_handle" state) (fun remote_r_handle =>
  and_then (state_item "remote_w_handle" state) (fun remote_w_handle =>
  Ok (mkConnection
        (Posix.open_handle r_handle "rb")
        (Posix.open_handle w_handle "wb")
        (Posix.open_handle remote_r_handle "rb")
        (Posix.open_handle remote_w_handle "wb")))))).

(** ** The interpreter: [sys], [importlib], [subprocess] *)

Record sys := mkSys {
  argv : pyobj;
  executable : string;
  flags : gmap string nat;
  warnoptions : list string
}.

(** The state of a process: its descriptors and its interpreter. *)
Record process := mkProcess { os : kernel; interp : sys }.

Definition on_os {A} (m : Py kernel A) : Py process A :=
  fun ps => let '(a, k) := m (os ps) in (a, mkProcess k (interp ps)).

Definition on_sys {A} (m : Py sys A) : Py process A :=
  fun ps => let '(a, s) := m (interp ps) in (a, mkProcess (os ps) s).

(** An attribute of a module: a function, called with keyword arguments, or
    an object that cannot be called. *)
Inductive attribute :=
| Function (f : list (string * pyobj) -> Py process pyobj)
| Object (x : pyobj).

Class Importlib := {
  import_module : string -> Py process (gmap string attribute)
}.

(** [subprocess.Popen(args, close_fds=...)]: the launch succeeds or fails
    by the command line; the new process is not part of this state. *)
Class Subprocess (Popen_t : Type) := {
  Popen : list string -> bool -> result Popen_t
}.

(** ** Small pieces of Python *)

(** [s.rsplit('.', 1)] when [s] has a dot: what is before and after the
    last one. *)
Fixpoint rsplit_dot (s : string) : option (string * string) :=
  match s with
  | EmptyString => None
  | String c s' =>
      match rsplit_dot s' with
      | Some (a, b) => Some (String c a, b)
      | None => if Ascii.eqb c "."%char then Some (EmptyString, s') else None
      end
  end.

Definition rsplit1 (s : string) : list string :=
  match rsplit_dot s with
  | Some (a, b) => [a; b]
  | None => [s]
  end.

(** [a, b = l] *)
Definition unpack2 {A} (l : list A) : result (A * A) :=
  match l with
  | [a; b] => Ok (a, b)
  | _ => Raise ValueError
  end.

(** [a, b, c = l] *)
Definition unpack3 {A} (l : list A) : result (A * A * A) :=
  match l with
  | [a; b; c] => Ok (a, b, c)
  | _ => Raise ValueError
  end.

(** The items that iterating over an object gives. *)
Definition py_iter (x : pyobj) : result (list pyobj) :=
  match x with
  | PyList l => Ok l
  | PyDict d => Ok (map (fun kv => PyStr (fst kv)) d)
  | PyStr s => Ok (map (fun c => PyStr (String c EmptyString)) (String.list_ascii_of_string s))
  | _ => Raise TypeError
  end.

(** [d[key]] on the items of a dictionary. *)
Fixpoint dict_get (key : string) (d : list (string * pyobj)) : option pyobj :=
  match d with
  | [] => None
  | (k, v) :: d' => if String.eqb k key then Some v else dict_get key d'
  end.

Fixpoint is_substring (a s : string) : bool :=
  String.prefix a s ||
  match s with
  | EmptyString => false
  | String _ s' => is_substring a s'
  end.

Definition is_str (key : string) (x : pyobj) : bool :=
  match x with PyStr s => String.eqb s key | _ => false end.

(** [key in x], for a string [key] *)
Definition py_contains (key : string) (x : pyobj) : result bool :=
  match x with
  | PyDict d => Ok (bool_decide (is_Some (dict_get key d)))
  | PyList l => Ok (existsb (is_str key) l)
  | PyStr s => Ok (is_substring key s)
  | _ => Raise TypeError
  end.

(** [x[key]], for a string [key]; lists and strings want integers. *)
Definition py_getitem (key : string) (x : pyobj) : result pyobj :=
  match x with
  | PyDict d =>
      match dict_get key d with
      | Some v => Ok v
      | None => Raise KeyError
      end
  | _ => Raise TypeError
  end.

(** ** The spawner *)

(** [getattr(module, name)] *)
Definition getattr (module : gmap string attribute) (name : string)
    : Py process attribute :=
  match module !! name with
  | Some a => ret a
  | None => raise AttributeError
  end.

(** The call of [func] with the keyword arguments [kwargs]. *)
Definition call (func : attribute) (kwargs : pyobj) : Py process pyobj :=
  match func, kwargs with
  | Function f, PyDict d => f d
  | _, _ => raise TypeError
  end.

Definition resolve_spec `{Importlib} (spec : pyobj) : Py process attribute :=
  match spec with
  | PyStr s =>
      names <- lift (unpack2 (rsplit1 s)) ;;
      let '(modname, funcname) := names in
      module <- import_module modname ;;
      func <- getattr module funcname ;;
      ret func
  | _ => raise AttributeError
  end.

(** Python 3.4 and later have [os.get_inheritable]. *)
Definition set_inheritable (fd : nat) : Py kernel unit :=
  inh <- os_get_inheritable fd ;;
  if (inh : bool) then ret tt else os_set_inheritable fd true.

Fixpoint for_each {S A} (f : A -> Py S unit) (l : list A) : Py S unit :=
  match l with
  | [] => ret tt
  | x :: l' => _ <- f x ;; for_each f l'
  end.

Definition flag_opt_map : list (string * string) :=
  [("debug", "d"); ("dont_write_bytecode", "B"); ("no_user_site", "s");
   ("no_site", "S"); ("ignore_environment", "E"); ("verbose", "v");
   ("bytes_warning", "b"); ("quiet", "q"); ("optimize", "O")]%string.

(** [opt * v] *)
Fixpoint str_mul (s : string) (n : nat) : string :=
  match n with
  | O => EmptyString
  | S n' => String.append s (str_mul s n')
  end.

Definition args_from_interpreter_flags (s : sys) : list string :=
  flat_map (fun fo : string * string =>
              let v := default O (flags s !! fst fo) in
              if bool_decide (0 < v)%nat
              then [String.append "-" (str_mul (snd fo) v)]
              else [])
           flag_opt_map
  ++ map (String.append "-W") (warnoptions s).

(** The keyword arguments are handles, and [%r] writes them in decimal. *)
Definition get_command_line (kwds : list (string * nat)) (s : sys) : list string :=
  let prog :=
    String.append "from hupper.ipc import spawn_main; spawn_main("
      (String.append
         (String.concat ", "
            (map (fun item : string * nat =>
                    String.append (fst item) (String.append "=" (pretty (snd item))))
                 kwds))
         ")") in
  let opts := args_from_interpreter_flags s in
  [executable s] ++ opts ++ ["-c"%string; prog].

Definition get_preparation_data : Py sys pyobj :=
  s <- get ;; ret (PyDict [("sys.argv"%string, argv s)]).

Definition set_argv (v : pyobj) (s : sys) : sys :=
  mkSys v (executable s) (flags s) (warnoptions s).

Definition prepare (data : pyobj) : Py sys unit :=
  has <- lift (py_contains "sys.argv" data) ;;
  if (has : bool)
  then v <- lift (py_getitem "sys.argv" data) ;; modify (set_argv v)
  else ret tt.

(** Writing to the file that [os.fdopen(fd, 'wb')] gives: the bytes are in
    the pipe once the file is closed, which [spawn] does next. *)
Definition file_write (fd : nat) (data : bytes) : Py kernel unit :=
  fun k => match fdtab k !! fd with
           | Some (mkDesc (PipeWriter p) _) =>
               (Ok tt, set_pipes <[p := default [] (pipes k !! p) ++ data]> k)
           | Some _ => (Raise (IOError "not writable"), k)
           | None => (Raise EBADF, k)
           end.

(** [pickle.load(f)] on the file that [os.fdopen(fd, 'rb')] gives, for a
    pipe that holds a whole pickle or whose writing ends are all closed:
    what the call returns or raises.  (On a pipe that holds less than a
    pickle and has a writing end open, the call waits.) *)
Definition file_load `{Pickle} (fd : nat) : Py kernel pyobj :=
  fun k => match fdtab k !! fd with
           | Some (mkDesc (PipeReader p) _) =>
               let '(x, rest) := load (default [] (pipes k !! p)) in
               (x, set_pipes <[p := rest]> k)
           | Some _ => (Raise (IOError "not readable"), k)
           | None => (Raise EBADF, k)
           end.

(** [spawn], with the POSIX [get_handle]. *)
Definition spawn `{Pickle} {Popen_t} `{Subprocess Popen_t}
    (spec kwargs : pyobj) (pass_fds : list nat) : Py process Popen_t :=
  rw <- on_os os_pipe ;; let '(r, w) := rw in
  _ <- on_os (for_each set_inheritable ([r] ++ pass_fds)) ;;
  preparation_data <- on_sys get_preparation_data ;;
  let r_handle := Posix.get_handle r in
  s <- on_sys get ;;
  let args := get_command_line [("pipe_handle"%string, r_handle)] s in
  process <- lift (Popen args false) ;;
  to_child <- on_os (os_fdopen w) ;;
  data <- lift (dumps (PyList [preparation_data; spec; kwargs])) ;;
  _ <- on_os (file_write to_child data) ;;
  _ <- on_os (os_close to_child) ;;
  ret process.

(** [spawn_main], with the POSIX [open_handle].  It ends in [sys.exit(0)],
    so it never returns a value. *)
Definition spawn_main `{Pickle} `{Importlib} (pipe_handle : nat)
    : Py process pyobj :=
  let fd := Posix.open_handle pipe_handle "rb" in
  from_parent <- on_os (os_fdopen fd) ;;
  packet <- on_os (file_load from_parent) ;;
  items <- lift (py_iter packet) ;;
  triple <- lift (unpack3 items) ;;
  let '(preparation_data, spec, kwargs) := triple in
  _ <- on_os (os_close from_parent) ;;
  _ <- on_sys (prepare preparation_data) ;;
  match spec with
  | PyStr s =>
      names <- lift (unpack2 (rsplit1 s)) ;;
      let '(modname, funcname) := names in
      module <- import_module modname ;;
      func <- getattr module funcname ;;
      _ <- call func kwargs ;;
      raise (SystemExit 0)
  | _ => raise AttributeError
  end.

(** ** An instance of the serializer

    Pickle protocol 2 for [None], booleans, integers below 256, strings,
    lists and dictionaries, without the memo.  It is there to run the
    functions above on actual bytes. *)
Module Pickle2.

Definition NONE : byte := x4e.
Definition NEWTRUE : byte := x88.
Definition NEWFALSE : byte := x89.
Definition BININT1 : byte := x4b.
Definition BINUNICODE : byte := x58.
Definition EMPTY_LIST : byte := x5d.
Definition EMPTY_DICT : byte := x7d.
Definition MARK : byte := x28.
Definition APPENDS : byte := x65.
Definition SETITEMS : byte := x75.
Definition PROTO : byte := x80.
Definition STOP : byte := x2e.

Definition save_str (s : string) : bytes :=
  let b := String.list_byte_of_string s in
  [BINUNICODE] ++ le_split 4 (len b) ++ b.

Fixpoint save (x : pyobj) : option bytes :=
  match x with
  | PyNone => Some [NONE]
  | PyBool true => Some [NEWTRUE]
  | PyBool false => Some [NEWFALSE]
  | PyInt z =>
      if (0 <=? z) && (z <? 256) then Some [BININT1; byte_of_Z z] else None
  | PyStr s => Some (save_str s)
  | PyList l =>
      let items :=
        (fix go (l : list pyobj) : option bytes :=
           match l with
           | [] => Some []
           | y :: l' => b ← save y; bs ← go l'; Some (b ++ bs)
           end) l in
      match l with
      | [] => Some [EMPTY_LIST]
      | _ => b ← items; Some ([EMPTY_LIST; MARK] ++ b ++ [APPENDS])
      end
  | PyDict d =>
      let items :=
        (fix go (d : list (string * pyobj)) : option bytes :=
           match d with
           | [] => Some []
           | (k, v) :: d' =>
               bv ← save v; bs ← go d'; Some (save_str k ++ bv ++ bs)
           end) d in
      match d with
      | [] => Some [EMPTY_DICT]
      | _ => b ← items; Some ([EMPTY_DICT; MARK] ++ b ++ [SETITEMS])
      end
  end.

(** The unpickling machine: a stack of objects and marks, and the argument
    of the current opcode while its bytes come in. *)
Inductive slot := Obj (x : pyobj) | Mark.

Inductive argument := ProtoArg | IntArg | LenArg | StrArg.

Inductive mode :=
| Opcode
| Arg (a : argument) (need : nat) (acc : bytes).

(** The objects above the topmost mark, oldest first, and the stack under
    the mark. *)
Fixpoint pop_mark (st : list slot) (acc : list pyobj)
    : option (list pyobj * list slot) :=
  match st with
  | [] => None
  | Mark :: st' => Some (acc, st')
  | Obj x :: st' => pop_mark st' (x :: acc)
  end.

Fixpoint pairs (l : list pyobj) : option (list (string * pyobj)) :=
  match l with
  | [] => Some []
  | PyStr k :: v :: l' => d ← pairs l'; Some ((k, v) :: d)
  | _ => None
  end.

Definition finish (a : argument) (acc : bytes) (st : list slot)
    : option (list slot * mode) :=
  match a with
  | ProtoArg => Some (st, Opcode)
  | IntArg => Some (Obj (PyInt (le_combine acc)) :: st, Opcode)
  | LenArg =>
      match Z.to_nat (le_combine acc) with
      | O => Some (Obj (PyStr EmptyString) :: st, Opcode)
      | n => Some (st, Arg StrArg n [])
      end
  | StrArg => Some (Obj (PyStr (String.string_of_list_byte acc)) :: st, Opcode)
  end.

Inductive step_result :=
| Next (st : list slot) (m : mode)
| Stop (x : pyobj)
| Bad.

Definition of_option (o : option (list slot * mode)) : step_result :=
  match o with
  | Some (st, m) => Next st m
  | None => Bad
  end.

Definition opcode (b : byte) (st : list slot) : step_result :=
  if Byte.eqb b PROTO then Next st (Arg ProtoArg 1 [])
  else if Byte.eqb b NONE then Next (Obj PyNone :: st) Opcode
  else if Byte.eqb b NEWTRUE then Next (Obj (PyBool true) :: st) Opcode
  else if Byte.eqb b NEWFALSE then Next (Obj (PyBool false) :: st) Opcode
  else if Byte.eqb b BININT1 then Next st (Arg IntArg 1 [])
  else if Byte.eqb b BINUNICODE then Next st (Arg LenArg 4 [])
  else if Byte.eqb b EMPTY_LIST then Next (Obj (PyList []) :: st) Opcode
  else if Byte.eqb b EMPTY_DICT then Next (Obj (PyDict []) :: st) Opcode
  else if Byte.eqb b MARK then Next (Mark :: st) Opcode
  else if Byte.eqb b APPENDS then
    match pop_mark st [] with
    | Some (items, Obj (PyList l) :: st') =>
        Next (Obj (PyList (l ++ items)) :: st') Opcode
    | _ => Bad
    end
  else if Byte.eqb b SETITEMS then
    match pop_mark st [] with
    | Some (items, Obj (PyDict d) :: st') =>
        match pairs items with
        | Some d' => Next (Obj (PyDict (d ++ d')) :: st') Opcode
        | None => Bad
        end
    | _ => Bad
    end
  else if Byte.eqb b STOP then
    match st with
    | Obj x :: _ => Stop x
    | _ => Bad
    end
  else Bad.

Definition step (st : list slot) (m : mode) (b : byte) : step_result :=
  match m with
  | Opcode => opcode b st
  | Arg a need acc =>
      match need with
      | S O => of_option (finish a (acc ++ [b]) st)
      | _ => Next st (Arg a (Nat.pred need) (acc ++ [b]))
      end
  end.

(** Running out of bytes before [STOP] is an [EOFError]. *)
Fixpoint run (st : list slot) (m : mode) (s : bytes) : result pyobj * bytes :=
  match s with
  | [] => (Raise EOFError, [])
  | b :: s' =>
      match step st m b with
      | Next st' m' => run st' m' s'
      | Stop x => (Ok x, s')
      | Bad => (Raise PickleError, s')
      end
  end.

#[export] Instance pickle : Pickle := {|
  dumps x := match save x with
             | Some b => Ok ([PROTO; x02] ++ b ++ [STOP])
             | None => Raise PickleError
             end;
  loads s := fst (run [] Opcode s);
  load := run [] Opcode
|}.

End Pickle2.

(** ** A host to run on

    A little-endian machine of 64 bits with room for reads of 4 GiB, a
    console on descriptors 0 to 2, a package with one module, a launcher
    that always succeeds, and a job system that refuses a process which is
    in a job already. *)
Module Sample.

Import Pickle2.

#[export] Instance host : Host := {| sys_byteorder := LittleEndian |}.

Definition cooked : termios_attr := mkAttr 17664 5 191 35387 15 15 [3; 28; 127].
Definition raw : termios_attr := mkAttr 0 4 191 0 15 15 [3; 28; 127].

Definition console : kernel :=
  mkKernel
    (<[0%nat := mkDesc (Terminal 0) true]>
       (<[1%nat := mkDesc (Terminal 0) true]>
          (<[2%nat := mkDesc (Terminal 0) true]> ∅)))
    (<[0%nat := mkTty raw [x71] [x0a]]> ∅)
    ∅
    16.

Definition python : sys :=
  mkSys (PyList [PyStr "serve"; PyStr "--reload"]) "/usr/bin/python3"
    (<["optimize"%string := 1%nat]> ∅) ["ignore"%string].

Definition supervisor : process := mkProcess console python.

(** [pkg.app.main] leaves in [sys.argv] the [sys.argv] that it found and
    its keyword arguments, and returns the number of these. *)
Definition main (kwargs : list (string * pyobj)) : Py process pyobj :=
  _ <- on_sys (modify (fun s => set_argv (PyList [argv s; PyDict kwargs]) s)) ;;
  ret (PyInt (len kwargs)).

#[export] Instance importlib : Importlib := {|
  import_module name :=
    if String.eqb name "pkg.app"
    then ret (<["main"%string := Function main]>
                (<["version"%string := Object (PyInt 1)]> ∅))
    else raise ImportError
|}.

(** A 64-bit host with room for 4 GiB in one piece. *)
#[export] Instance memory : Limited.Memory := {|
  Limited.refuses n :=
    if 2 ^ 63 - 1 <=? n then Some Limited.TooLarge
    else if 2 ^ 32 <? n then Some Limited.NoMemory
    else None
|}.

#[export] Instance subprocess : Subprocess nat := {|
  Popen args close_fds := Ok 4242%nat
|}.

(** The state is the list of the processes that are in a job. *)
#[export] Instance winapi : Windows.winapi (list Z) Z := {|
  Windows.PROCESS_ALL_ACCESS := 2097151;
  Windows.OpenProcess access inherit pid := ret pid;
  Windows.AssignProcessToJobObject job hp :=
    members <- get ;;
    if bool_decide (hp ∈ members)
    then raise (OSError (Some 5) "Access is denied")
    else _ <- modify (cons hp) ;; ret (PyBool true)
|}.

Definition idle : writer := mkWriter [] [].

(** A channel just activated whose peer has closed without sending. *)
Definition hung_up : Active := mkActive [] idle [] Running.

(** The supervisor after it has spawned [pkg.app.main(n=7)]. *)
Definition after_spawn : process :=
  snd (spawn (PyStr "pkg.app.main") (PyDict [("n"%string, PyInt 7)]) []
         supervisor).

(** The new process: the descriptors of the supervisor, its own
    interpreter. *)
Definition worker : process :=
  mkProcess (os after_spawn)
    (mkSys (PyList [PyStr "-c"]) "/usr/bin/python3" ∅ []).

(** A process that has room for three descriptors more: one pipe and the
    half of another. *)
Definition crowded : kernel := mkKernel (fdtab console) (ttys console) ∅ 6.

(** The console, and the working directory held open on descriptor 3. *)
Definition at_home : kernel :=
  set_fdtab <[3%nat := mkDesc Directory false]> console.

(** A launcher that does not find the interpreter. *)
Definition no_interpreter : Subprocess nat := {|
  Popen args close_fds := Raise (OSError None "No such file or directory")
|}.

(** A job system that does not open the System process, 4. *)
Definition guarded : Windows.winapi (list Z) Z := {|
  Windows.PROCESS_ALL_ACCESS := 2097151;
  Windows.OpenProcess access inherit pid :=
    if pid =? 4 then raise (OSError (Some 5) "Access is denied") else ret pid;
  Windows.AssignProcessToJobObject job hp :=
    members <- get ;;
    if bool_decide (hp ∈ members)
    then raise (OSError (Some 5) "Access is denied")
    else _ <- modify (cons hp) ;; ret (PyBool true)
|}.

(** The new process after the supervisor has spawned [spec] with
    [kwargs]. *)
Definition worker_of (spec kwargs : pyobj) : process :=
  mkProcess (os (snd (spawn spec kwargs [] supervisor)))
    (mkSys (PyList [PyStr "-c"]) "/usr/bin/python3" ∅ []).

End Sample.

(** * Properties *)

(** ** struct *)

Lemma Z_of_byte_range b : 0 <= Z_of_byte b < 256.
Proof.
  unfold Z_of_byte. pose proof (Byte.to_N_bounded b). lia.
Qed.

Lemma Z_of_byte_of_Z z : Z_of_byte (byte_of_Z z) = z mod 256.
Proof.
  unfold Z_of_byte, byte_of_Z.
  pose proof (Z.mod_pos_bound z 256 ltac:(lia)) as Hz.
  destruct (Byte.of_N (Z.to_N (z mod 256))) as [b|] eqn:E.
  - apply Byte.to_of_N in E. rewrite E. lia.
  - apply Byte.of_N_None_iff in E. lia.
Qed.

Lemma length_le_split n z : length (le_split n z) = n.
Proof. revert z. induction n as [|n IH]; intros z; simpl; [done | by rewrite IH]. Qed.

Lemma le_combine_split n z : le_combine (le_split n z) = z mod 256 ^ Z.of_nat n.
Proof.
  revert z. induction n as [|n IH]; intros z.
  - simpl. by rewrite Z.mod_1_r.
  - cbn [le_split le_combine]. rewrite IH, Z_of_byte_of_Z.
    rewrite Nat2Z.inj_succ, Z.pow_succ_r by lia.
    rewrite Z.rem_mul_r by lia. reflexivity.
Qed.

Lemma in_order_twice o l : in_order o (in_order o l) = l.
Proof. destruct o; simpl; [done | apply rev_involutive]. Qed.

Lemma length_in_order o l : length (in_order o l) = length l.
Proof. destruct o; simpl; [done | apply length_rev]. Qed.

Section Struct.
Context `{Host}.

Lemma pack_Q_Ok n b : pack_Q n = Ok b -> 0 <= n < 2 ^ 64 /\ length b = 8%nat.
Proof.
  unfold pack_Q. intros Hp.
  destruct (Z.leb_spec 0 n); destruct (Z.ltb_spec n (2 ^ 64));
    cbn [andb] in Hp; try discriminate.
  assert (b = in_order sys_byteorder (le_split 8 n)) as -> by congruence.
  rewrite length_in_order, length_le_split. lia.
Qed.

Lemma pack_Q_fits n : 0 <= n < 2 ^ 64 -> exists b, pack_Q n = Ok b.
Proof.
  intros Hn. unfold pack_Q.
  destruct (Z.leb_spec 0 n); [|lia]. destruct (Z.ltb_spec n (2 ^ 64)); [|lia].
  cbn [andb]. eauto.
Qed.

Lemma unpack_pack n b : pack_Q n = Ok b -> unpack_Q b = Ok n.
Proof.
  intros Hp. destruct (pack_Q_Ok _ _ Hp) as [Hn Hl].
  unfold unpack_Q, len. rewrite Hl. simpl.
  unfold pack_Q in Hp.
  destruct (0 <=? n); destruct (n <? 2 ^ 64); cbn [andb] in Hp;
    try discriminate.
  assert (b = in_order sys_byteorder (le_split 8 n)) as -> by congruence.
  rewrite in_order_twice, le_combine_split.
  f_equal. apply Z.mod_small. change (256 ^ Z.of_nat 8) with (2 ^ 64). lia.
Qed.

Lemma unpack_Q_Ok chunk n : unpack_Q chunk = Ok n -> length chunk = 8%nat.
Proof.
  unfold unpack_Q, len. destruct (Z.eqb_spec (Z.of_nat (length chunk)) 8); [lia | done].
Qed.

Lemma unpack_Q_short chunk : len chunk <> 8 -> unpack_Q chunk = Raise struct_error.
Proof.
  unfold unpack_Q. intros Hl. by destruct (Z.eqb_spec (len chunk) 8).
Qed.
End Struct.

(** ** Reading *)

Lemma read_app n a rest :
  len a = n -> read n (a ++ rest) = (Ok a, rest).
Proof.
  unfold read, len. intros <-. rewrite Nat2Z.id.
  by rewrite take_app_length, drop_app_length.
Qed.

Lemma read_all n s :
  len s <= n -> read n s = (Ok s, []).
Proof.
  unfold read, len. intros Hn.
  rewrite take_ge, drop_ge by lia. reflexivity.
Qed.

Lemma recv_payload_done size remaining buf s :
  remaining <= 0 -> recv_payload size remaining buf s = (Ok buf, s).
Proof.
  intros Hr. rewrite recv_payload_equation_1.
  destruct (decide (remaining > 0)); [lia|].
  by rewrite recv_payload_clause_1_equation_2.
Qed.

(** One turn of the loop, with [chunk] what [read] returns. *)
Lemma recv_payload_turn size remaining buf s :
  0 < remaining ->
  let chunk := take (Z.to_nat remaining) s in
  let s' := drop (Z.to_nat remaining) s in
  recv_payload size remaining buf s =
    if decide (len chunk = 0)
    then (Raise (if decide (remaining = size) then EOFError
                 else IOError "got end of file during message"), s')
    else recv_payload size (remaining - len chunk) (buf ++ chunk) s'.
Proof.
  intros Hr chunk s'. rewrite recv_payload_equation_1.
  destruct (decide (remaining > 0)); [|lia].
  rewrite recv_payload_clause_1_equation_1. unfold read. fold chunk s'.
  rewrite recv_payload_clause_1_clause_2_equation_1.
  destruct (decide (len chunk = 0)).
  - rewrite recv_payload_clause_1_clause_2_clause_2_equation_1.
    by destruct (decide (remaining = size)).
  - by rewrite recv_payload_clause_1_clause_2_clause_2_equation_2.
Qed.

Lemma recv_payload_eof size remaining buf :
  0 < remaining ->
  recv_payload size remaining buf [] =
    (Raise (if decide (remaining = size) then EOFError
            else IOError "got end of file during message"), []).
Proof.
  intros Hr. rewrite recv_payload_turn by done.
  rewrite take_nil, drop_nil. by destruct (decide (len (@nil byte) = 0)).
Qed.

Lemma recv_payload_complete size remaining buf data rest :
  len data = remaining ->
  recv_payload size remaining buf (data ++ rest) = (Ok (buf ++ data), rest).
Proof.
  intros Hl. destruct (decide (remaining > 0)) as [Hpos|Hpos].
  - rewrite recv_payload_turn by lia.
    assert (Z.to_nat remaining = length data) as -> by (unfold len in Hl; lia).
    rewrite take_app_length, drop_app_length.
    destruct (decide (len data = 0)); [lia|].
    apply recv_payload_done. lia.
  - assert (data = []) as ->.
    { destruct data; [done | unfold len in Hl; simpl in Hl; lia]. }
    rewrite app_nil_r. apply recv_payload_done. lia.
Qed.

Lemma recv_payload_short size remaining buf s :
  0 < len s < remaining ->
  recv_payload size remaining buf s =
    (Raise (if decide (remaining - len s = size) then EOFError
            else IOError "got end of file during message"), []).
Proof.
  intros Hl. rewrite recv_payload_turn by lia.
  rewrite take_ge, drop_ge by (unfold len in Hl; lia).
  destruct (decide (len s = 0)); [lia|].
  apply recv_payload_eof. lia.
Qed.

(** ** _recv_packet, case by case *)

Section Framing.
Context `{Host} `{Pickle}.

(** Nothing left: the clean end of the stream. *)
Lemma _recv_packet_eof : _recv_packet [] = (Ok PyNone, []).
Proof. reflexivity. Qed.

(** One to seven bytes left. *)
Lemma _recv_packet_short_prefix s :
  0 < len s < 8 -> _recv_packet s = (Raise struct_error, []).
Proof.
  intros Hl. unfold _recv_packet, bind.
  rewrite read_all by lia.
  destruct (decide (s = [])) as [->|_]; [unfold len in Hl; simpl in Hl; lia|].
  unfold lift. rewrite unpack_Q_short by lia. reflexivity.
Qed.

Lemma _recv_packet_prefix prefix K s :
  unpack_Q prefix = Ok K ->
  _recv_packet (prefix ++ s) =
    match recv_payload K K [] s with
    | (Ok data, s') => (loads data, s')
    | (Raise e, s') => (Raise e, s')
    end.
Proof.
  intros Hu. pose proof (unpack_Q_Ok _ _ Hu) as Hl.
  unfold _recv_packet, bind.
  rewrite (read_app 8 prefix s) by (unfold len; lia).
  destruct (decide (prefix = [])) as [->|_]; [done|].
  unfold lift. rewrite Hu. by destruct (recv_payload K K [] s) as [[data|e] s'].
Qed.

(** A whole frame. *)
Lemma _recv_packet_frame prefix data rest :
  unpack_Q prefix = Ok (len data) ->
  _recv_packet (prefix ++ data ++ rest) = (loads data, rest).
Proof.
  intros Hu. rewrite (_recv_packet_prefix _ _ _ Hu).
  by rewrite recv_payload_complete.
Qed.

(** The prefix and nothing after it. *)
Lemma _recv_packet_no_payload prefix K :
  unpack_Q prefix = Ok K -> 0 < K ->
  _recv_packet prefix = (Raise EOFError, []).
Proof.
  intros Hu HK. rewrite <- (app_nil_r prefix) at 1.
  rewrite (_recv_packet_prefix _ _ _ Hu), recv_payload_eof by done.
  by destruct (decide (K = K)).
Qed.

(** The prefix and a part of the payload. *)
Lemma _recv_packet_partial prefix K payload :
  unpack_Q prefix = Ok K -> 0 < len payload < K ->
  _recv_packet (prefix ++ payload) =
    (Raise (IOError "got end of file during message"), []).
Proof.
  intros Hu Hl. rewrite (_recv_packet_prefix _ _ _ Hu).
  rewrite recv_payload_short by done.
  destruct (decide (K - len payload = K)); [lia | done].
Qed.

(** ** _read_loop *)

Lemma read_loop_turns_stopped n c :
  reader_thread c <> Running -> read_loop_turns n c = c.
Proof. destruct n; simpl; [done|]. by destruct (reader_thread c). Qed.

(** When the first turn ends the thread, it is the only one. *)
Lemma _read_loop_one_turn c :
  reader_thread c = Running ->
  reader_thread (read_loop_turn c) <> Running ->
  _read_loop c = read_loop_turn c.
Proof.
  intros Hrun Hstop. unfold _read_loop. simpl. rewrite Hrun.
  by apply read_loop_turns_stopped.
Qed.

(** The loop takes bytes off the stream and never puts any back. *)
Lemma recv_payload_length size remaining buf s :
  (length (snd (recv_payload size remaining buf s)) <= length s)%nat.
Proof.
  remember (Z.to_nat remaining) as n eqn:Hn.
  revert remaining buf s Hn.
  induction n as [n IH] using lt_wf_ind. intros remaining buf s Hn.
  destruct (decide (remaining > 0)) as [Hpos|];
    [|rewrite recv_payload_done by lia; done].
  rewrite recv_payload_turn by lia.
  destruct (decide (len (take (Z.to_nat remaining) s) = 0)) as [|Hne].
  - simpl. rewrite length_drop. lia.
  - etransitivity;
      [eapply (IH (Z.to_nat (remaining - len (take (Z.to_nat remaining) s))))|].
    + unfold len in *. lia.
    + reflexivity.
    + rewrite length_drop. lia.
Qed.

(** A turn after which the thread goes on has taken at least a prefix. *)
Lemma read_loop_turn_progress c :
  reader_thread (read_loop_turn c) = Running ->
  (length (r (read_loop_turn c)) + 8 <= length (r c))%nat.
Proof.
  unfold read_loop_turn, _recv_packet, bind, read. cbv zeta.
  destruct (decide (take (Z.to_nat 8) (r c) = [])) as [|Hne]; [done|].
  unfold lift. destruct (unpack_Q (take (Z.to_nat 8) (r c))) as [K|e] eqn:Hu.
  - pose proof (unpack_Q_Ok _ _ Hu) as Hl.
    pose proof (recv_payload_length K K [] (drop (Z.to_nat 8) (r c))) as Hp.
    rewrite length_drop in Hp. rewrite length_take in Hl.
    destruct (recv_payload K K [] (drop (Z.to_nat 8) (r c))) as [[data|e] s'].
    + simpl in Hp. destruct (loads data) as [packet|e].
      * destruct (is_None packet); [done|]. simpl. lia.
      * by destruct e.
    + by destruct e.
  - by destruct e.
Qed.

Lemma read_loop_turns_end n c :
  (length (r c) < n)%nat -> reader_thread (read_loop_turns n c) <> Running.
Proof.
  revert c. induction n as [|n IH]; intros c Hn; [lia|].
  simpl. destruct (reader_thread c) eqn:Hc; [|by rewrite Hc..].
  destruct (reader_thread (read_loop_turn c)) eqn:Hrun.
  - apply IH. pose proof (read_loop_turn_progress c Hrun). lia.
  - rewrite read_loop_turns_stopped; by rewrite Hrun.
  - rewrite read_loop_turns_stopped; by rewrite Hrun.
Qed.

(** [_read_loop] ends, whatever is on the stream. *)
Lemma _read_loop_ends c : reader_thread (_read_loop c) <> Running.
Proof. apply read_loop_turns_end. lia. Qed.
End Framing.

(** ** Reads that are refused *)

Section Limits.
Context `{Host} `{Pickle} `{Limited.Memory}.

Lemma limited_recv_payload_done size remaining buf s :
  remaining <= 0 -> Limited.recv_payload size remaining buf s = (Ok buf, s).
Proof.
  intros Hr. rewrite Limited.recv_payload_equation_1.
  destruct (decide (remaining > 0)); [lia|].
  by rewrite Limited.recv_payload_clause_1_equation_2.
Qed.

(** The read that is refused ends the loop, and the stream is as it was. *)
Lemma limited_recv_payload_refused size remaining buf s x :
  0 < remaining -> Limited.refuses remaining = Some x ->
  Limited.recv_payload size remaining buf s
    = (Raise (Limited.refusal_error x), s).
Proof.
  intros Hr Hx. rewrite Limited.recv_payload_equation_1.
  destruct (decide (remaining > 0)); [|lia].
  rewrite Limited.recv_payload_clause_1_equation_1. unfold Limited.read.
  rewrite Hx. by rewrite Limited.recv_payload_clause_1_clause_2_equation_2.
Qed.

Lemma limited_recv_payload_turn size remaining buf s :
  0 < remaining -> Limited.refuses remaining = None ->
  let chunk := take (Z.to_nat remaining) s in
  let s' := drop (Z.to_nat remaining) s in
  Limited.recv_payload size remaining buf s =
    if decide (len chunk = 0)
    then (Raise (if decide (remaining = size) then EOFError
                 else IOError "got end of file during message"), s')
    else Limited.recv_payload size (remaining - len chunk) (buf ++ chunk) s'.
Proof.
  intros Hr Hg chunk s'. rewrite Limited.recv_payload_equation_1.
  destruct (decide (remaining > 0)); [|lia].
  rewrite Limited.recv_payload_clause_1_equation_1. unfold Limited.read.
  rewrite Hg. fold chunk s'.
  rewrite Limited.recv_payload_clause_1_clause_2_equation_1.
  destruct (decide (len chunk = 0)).
  - rewrite Limited.recv_payload_clause_1_clause_2_clause_2_equation_1.
    by destruct (decide (remaining = size)).
  - by rewrite Limited.recv_payload_clause_1_clause_2_clause_2_equation_2.
Qed.

(** As long as the host grants what is asked for, the loop is
    [recv_payload]. *)
Lemma limited_recv_payload_granted size remaining buf s :
  (forall n, 0 < n <= remaining -> Limited.refuses n = None) ->
  Limited.recv_payload size remaining buf s = recv_payload size remaining buf s.
Proof.
  remember (Z.to_nat remaining) as n eqn:Hn.
  revert remaining buf s Hn.
  induction n as [n IH] using lt_wf_ind. intros remaining buf s Hn Hg.
  destruct (decide (remaining > 0)) as [Hpos|];
    [|by rewrite limited_recv_payload_done, recv_payload_done by lia].
  rewrite limited_recv_payload_turn, recv_payload_turn by (auto with lia).
  destruct (decide (len (take (Z.to_nat remaining) s) = 0)) as [|Hne]; [done|].
  apply (IH (Z.to_nat (remaining - len (take (Z.to_nat remaining) s)))).
  - unfold len in *. lia.
  - reflexivity.
  - intros m Hm. apply Hg. unfold len in *. lia.
Qed.

Lemma limited_recv_payload_length size remaining buf s :
  (length (snd (Limited.recv_payload size remaining buf s)) <= length s)%nat.
Proof.
  remember (Z.to_nat remaining) as n eqn:Hn.
  revert remaining buf s Hn.
  induction n as [n IH] using lt_wf_ind. intros remaining buf s Hn.
  destruct (decide (remaining > 0)) as [Hpos|];
    [|rewrite limited_recv_payload_done by lia; done].
  destruct (Limited.refuses remaining) as [x|] eqn:Hx;
    [by rewrite (limited_recv_payload_refused _ _ _ _ x) by (done || lia)|].
  rewrite limited_recv_payload_turn by (done || lia).
  destruct (decide (len (take (Z.to_nat remaining) s) = 0)) as [|Hne].
  - simpl. rewrite length_drop. lia.
  - etransitivity;
      [eapply (IH (Z.to_nat (remaining - len (take (Z.to_nat remaining) s))))|].
    + unfold len in *. lia.
    + reflexivity.
    + rewrite length_drop. lia.
Qed.

Lemma limited_recv_packet_prefix prefix K s :
  unpack_Q prefix = Ok K -> Limited.refuses 8 = None ->
  Limited._recv_packet (prefix ++ s) =
    match Limited.recv_payload K K [] s with
    | (Ok data, s') => (loads data, s')
    | (Raise e, s') => (Raise e, s')
    end.
Proof.
  intros Hu H8. pose proof (unpack_Q_Ok _ _ Hu) as Hl.
  unfold Limited._recv_packet, bind, Limited.read. rewrite H8.
  change 8 with (Z.of_nat 8). rewrite Nat2Z.id, <- Hl.
  rewrite take_app_length, drop_app_length.
  destruct (decide (prefix = [])) as [->|_]; [done|].
  unfold lift. rewrite Hu.
  by destruct (Limited.recv_payload K K [] s) as [[data|e] s'].
Qed.

(** A frame within what the host grants is read as by [_recv_packet]. *)
Lemma limited_recv_packet_granted prefix K s :
  unpack_Q prefix = Ok K -> Limited.refuses 8 = None ->
  (forall n, 0 < n <= K -> Limited.refuses n = None) ->
  Limited._recv_packet (prefix ++ s) = _recv_packet (prefix ++ s).
Proof.
  intros Hu H8 Hg.
  rewrite (limited_recv_packet_prefix _ _ _ Hu H8), (_recv_packet_prefix _ _ _ Hu).
  by rewrite limited_recv_payload_granted.
Qed.

(** A prefix that announces more than the host grants. *)
Lemma limited_recv_packet_refused prefix K s x :
  unpack_Q prefix = Ok K -> 0 < K -> Limited.refuses 8 = None ->
  Limited.refuses K = Some x ->
  Limited._recv_packet (prefix ++ s) = (Raise (Limited.refusal_error x), s).
Proof.
  intros Hu HK H8 Hx. rewrite (limited_recv_packet_prefix _ _ _ Hu H8).
  by rewrite (limited_recv_payload_refused _ _ _ _ x).
Qed.

Lemma limited_read_loop_turn_granted c :
  Limited._recv_packet (r c) = _recv_packet (r c) ->
  Limited.read_loop_turn c = read_loop_turn c.
Proof. unfold Limited.read_loop_turn, read_loop_turn. by intros ->. Qed.

(** On a host that refuses nothing, the two are the same. *)
Lemma limited_recv_packet_unlimited s :
  (forall n, Limited.refuses n = None) ->
  Limited._recv_packet s = _recv_packet s.
Proof.
  intros Hg. unfold Limited._recv_packet, _recv_packet, bind, Limited.read, read.
  rewrite Hg. destruct (decide (take (Z.to_nat 8) s = [])); [done|].
  unfold lift. destruct (unpack_Q (take (Z.to_nat 8) s)) as [K|e]; [|done].
  by rewrite limited_recv_payload_granted by auto.
Qed.

Lemma limited_read_loop_unlimited c :
  (forall n, Limited.refuses n = None) ->
  Limited._read_loop c = _read_loop c.
Proof.
  intros Hg. unfold Limited._read_loop, _read_loop.
  generalize (S (length (r c))). intros n. revert c.
  induction n as [|n IH]; intros c; [done|].
  simpl. destruct (reader_thread c); [|done..].
  rewrite limited_read_loop_turn_granted
    by (by apply limited_recv_packet_unlimited).
  apply IH.
Qed.

Lemma limited_read_loop_turns_stopped n c :
  reader_thread c <> Running -> Limited.read_loop_turns n c = c.
Proof. destruct n; simpl; [done|]. by destruct (reader_thread c). Qed.

Lemma limited_read_loop_one_turn c :
  reader_thread c = Running ->
  reader_thread (Limited.read_loop_turn c) <> Running ->
  Limited._read_loop c = Limited.read_loop_turn c.
Proof.
  intros Hrun Hstop. unfold Limited._read_loop. simpl. rewrite Hrun.
  by apply limited_read_loop_turns_stopped.
Qed.

Lemma limited_read_loop_turn_progress c :
  reader_thread (Limited.read_loop_turn c) = Running ->
  (length (r (Limited.read_loop_turn c)) + 8 <= length (r c))%nat.
Proof.
  unfold Limited.read_loop_turn, Limited._recv_packet, bind, Limited.read.
  destruct (Limited.refuses 8) as [[]|]; [done..|]. cbv zeta.
  destruct (decide (take (Z.to_nat 8) (r c) = [])) as [|Hne]; [done|].
  unfold lift. destruct (unpack_Q (take (Z.to_nat 8) (r c))) as [K|e] eqn:Hu.
  - pose proof (unpack_Q_Ok _ _ Hu) as Hl.
    pose proof (limited_recv_payload_length K K [] (drop (Z.to_nat 8) (r c)))
      as Hp.
    rewrite length_drop in Hp. rewrite length_take in Hl.
    destruct (Limited.recv_payload K K [] (drop (Z.to_nat 8) (r c)))
      as [[data|e] s'].
    + simpl in Hp. destruct (loads data) as [packet|e].
      * destruct (is_None packet); [done|]. simpl. lia.
      * by destruct e.
    + by destruct e.
  - by destruct e.
Qed.

Lemma limited_read_loop_turns_end n c :
  (length (r c) < n)%nat ->
  reader_thread (Limited.read_loop_turns n c) <> Running.
Proof.
  revert c. induction n as [|n IH]; intros c Hn; [lia|].
  simpl. destruct (reader_thread c) eqn:Hc; [|by rewrite Hc..].
  destruct (reader_thread (Limited.read_loop_turn c)) eqn:Hrun.
  - apply IH. pose proof (limited_read_loop_turn_progress c Hrun). lia.
  - rewrite limited_read_loop_turns_stopped; by rewrite Hrun.
  - rewrite limited_read_loop_turns_stopped; by rewrite Hrun.
Qed.

(** [Limited._read_loop] ends, whatever is on the stream and whatever the
    host refuses. *)
Lemma limited_read_loop_ends c :
  reader_thread (Limited._read_loop c) <> Running.
Proof. apply limited_read_loop_turns_end. lia. Qed.

(** C1, as amended.  A frame whose prefix announces [K > 0] bytes.  When
    the host grants a read of [K] bytes or fewer, and the stream ends before
    the [K] bytes have all come: with at least one byte of the payload,
    [_recv_packet] raises [IOError] and [_read_loop] leaves through it,
    putting nothing on the queue; with no byte of the payload,
    [_recv_packet] raises [EOFError], which [_read_loop] takes for the end
    of the stream: it puts the closed sentinel and returns.  When the host
    refuses a read of [K] bytes, [_recv_packet] raises [OverflowError] or
    [MemoryError] whatever follows the prefix, be it the whole payload, and
    [_read_loop] leaves through it: nothing is read after the prefix and
    nothing is put on the queue. *)
Theorem partial_frame prefix K payload out q :
  unpack_Q prefix = Ok K -> 0 < K -> Limited.refuses 8 = None ->
  let c := mkActive (prefix ++ payload) out q Running in
  ((forall n, 0 < n <= K -> Limited.refuses n = None) ->
   len payload < K ->
   (payload <> [] ->
      Limited._recv_packet (prefix ++ payload) =
        (Raise (IOError "got end of file during message"), []) /\
      Limited._read_loop c =
        mkActive [] out q (Died (IOError "got end of file during message")))
   /\
   (payload = [] ->
      Limited._recv_packet (prefix ++ payload) = (Raise EOFError, []) /\
      Limited._read_loop c = mkActive [] out (q ++ [PyNone]) Finished))
  /\
  (forall x,
     Limited.refuses K = Some x ->
     Limited._recv_packet (prefix ++ payload) =
       (Raise (Limited.refusal_error x), payload) /\
     Limited._read_loop c =
       mkActive payload out q (Died (Limited.refusal_error x)) /\
     Limited.refusal_error x <> EOFError).
Proof.
  intros Hu HK H8 c. split.
  - intros Hg Hl.
    pose proof (limited_recv_packet_granted _ _ payload Hu H8 Hg) as Hsame.
    split.
    + intros Hne.
      assert (0 < len payload < K) as Hp.
      { destruct payload; [done | unfold len in *; simpl in *; lia]. }
      pose proof (_recv_packet_partial _ _ _ Hu Hp) as Hr.
      rewrite <- Hsame in Hr. split; [done|]. subst c.
      rewrite limited_read_loop_one_turn; unfold Limited.read_loop_turn;
        cbn [r w reader_queue reader_thread]; by rewrite ?Hr.
    + intros ->. rewrite app_nil_r in *.
      pose proof (_recv_packet_no_payload _ _ Hu HK) as Hr.
      rewrite <- Hsame in Hr. split; [done|]. subst c. rewrite app_nil_r.
      rewrite limited_read_loop_one_turn; unfold Limited.read_loop_turn;
        cbn [r w reader_queue reader_thread]; by rewrite ?Hr.
  - intros x Hx.
    pose proof (limited_recv_packet_refused _ _ payload _ Hu HK H8 Hx) as Hr.
    split; [done|]. split; [|by destruct x]. subst c.
    rewrite limited_read_loop_one_turn; unfold Limited.read_loop_turn;
      cbn [r w reader_queue reader_thread]; rewrite ?Hr; by destruct x.
Qed.
End Limits.

(** ** Frames that stop short *)

Section Truncation.
Context `{Host} `{Pickle}.

(** C10.  When the stream ends inside the prefix, after 1 to 7 of its
    bytes, [_recv_packet] raises [struct.error]; [_read_loop] does not
    catch it, so the thread dies and no sentinel is put.  The error is
    neither the [EOFError] of the clean end nor the [IOError] of a
    truncated payload. *)
Theorem truncated_prefix s out q :
  0 < len s < 8 ->
  _recv_packet s = (Raise struct_error, []) /\
  _read_loop (mkActive s out q Running) = mkActive [] out q (Died struct_error) /\
  struct_error <> EOFError /\
  (forall msg, struct_error <> IOError msg).
Proof.
  intros Hl. pose proof (_recv_packet_short_prefix s Hl) as Hr.
  split; [done|]. split; [|done].
  rewrite _read_loop_one_turn; unfold read_loop_turn;
    cbn [r w reader_queue reader_thread]; by rewrite ?Hr.
Qed.
End Truncation.

(** ** send *)

Section Send.
Context `{Host} `{Pickle}.

Lemma send_frame value data prefix c :
  dumps value = Ok data -> pack_Q (len data) = Ok prefix ->
  send value c =
    (Ok (len data + 8),
     mkActive (r c)
       (mkWriter [] (flushed (w c) ++ pending (w c) ++ prefix ++ data))
       (reader_queue c) (reader_thread c)).
Proof.
  intros Hd Hp. unfold send, bind, lift. rewrite Hd, Hp.
  unfold on_w, write, flush, ret. simpl. by rewrite <- !app_assoc.
Qed.

(** C7.  [send(v)] returns the number of bytes that it has put on the
    stream: the 8 bytes of the prefix and the bytes of the serialized
    value.  (A [bytes] object is shorter than 2^64.) *)
Theorem send_returns_bytes_written v data c :
  dumps v = Ok data -> len data < 2 ^ 64 ->
  exists frame c',
    send v c = (Ok (len data + 8), c') /\
    flushed (w c') = flushed (w c) ++ pending (w c) ++ frame /\
    pending (w c') = [] /\
    len frame = 8 + len data.
Proof.
  intros Hd Hl.
  destruct (pack_Q_fits (len data)) as [prefix Hp]; [unfold len in *; lia|].
  destruct (pack_Q_Ok _ _ Hp) as [_ Hlen].
  eexists (prefix ++ data), _. split; [by apply send_frame|].
  simpl. repeat split. unfold len. rewrite length_app. lia.
Qed.

(** C4.  Round trip: for a value [v] that pickle can write and read back,
    the frame that [send] puts on the stream is read by [_recv_packet] as
    [v], and what follows the frame stays on the stream. *)
Theorem send_recv_roundtrip v data c rest :
  dumps v = Ok data -> loads data = Ok v -> len data < 2 ^ 64 ->
  exists frame c',
    send v c = (Ok (len data + 8), c') /\
    flushed (w c') = flushed (w c) ++ pending (w c) ++ frame /\
    _recv_packet (frame ++ rest) = (Ok v, rest).
Proof.
  intros Hd Hload Hl.
  destruct (pack_Q_fits (len data)) as [prefix Hp]; [unfold len in *; lia|].
  eexists (prefix ++ data), _. split; [by apply send_frame|].
  split; [done|].
  rewrite <- app_assoc, _recv_packet_frame by (by apply unpack_pack).
  by rewrite Hload.
Qed.
End Send.

(** ** recv after the peer has gone *)

Section Closed.
Context `{Host} `{Pickle}.

Lemma activate_Ok self inbound k c k' :
  activate self inbound k = (Ok c, k') ->
  c = mkActive inbound (mkWriter [] []) [] Running.
Proof.
  unfold activate, bind. intros Ha.
  repeat match type of Ha with
         | context [match ?m with _ => _ end] => destruct m as [[?|?] ?]
         end; by inversion Ha.
Qed.

(** Nothing queued and no thread to queue anything. *)
Lemma recvs_blocked n c :
  reader_queue c = [] -> reader_thread c <> Running ->
  recvs n c = repeat Blocks n.
Proof.
  intros Hq Ht. induction n as [|n IH]; [done|].
  simpl. unfold recv. rewrite Hq.
  destruct (reader_thread c) eqn:Hc; [done|..]; rewrite Hq; simpl;
    by rewrite IH.
Qed.

(** *** The reader thread may run ahead

    [recv] is defined with the reader thread taking a turn only when a
    caller waits for it.  The thread runs on its own in fact; the outcomes
    of the calls of [recv] are the same however far it has got. *)

Lemma read_loop_turn_dequeued c p q :
  reader_queue c = p :: q ->
  read_loop_turn (dequeued c) = dequeued (read_loop_turn c) /\
  exists q', reader_queue (read_loop_turn c) = p :: q'.
Proof.
  intros Hq. unfold read_loop_turn, dequeued, put. rewrite Hq. simpl.
  destruct (_recv_packet (r c)) as [[packet|e] r'].
  - destruct (is_None packet); simpl; eauto.
  - destruct e; simpl; eauto.
Qed.

Lemma read_loop_turns_dequeued k c p q :
  reader_queue c = p :: q ->
  read_loop_turns k (dequeued c) = dequeued (read_loop_turns k c) /\
  exists q', reader_queue (read_loop_turns k c) = p :: q'.
Proof.
  revert c q. induction k as [|k IH]; intros c q Hq; [simpl; eauto|].
  simpl. change (reader_thread (dequeued c)) with (reader_thread c).
  destruct (reader_thread c); [|eauto..].
  destruct (read_loop_turn_dequeued c p q Hq) as (-> & q' & Hq').
  by apply (IH _ q').
Qed.

Lemma recv_queued c p q :
  reader_queue c = p :: q -> recv c = (Returns p, dequeued c).
Proof.
  intros Hq. unfold recv, dequeued. rewrite Hq. cbv beta iota zeta.
  by rewrite Hq.
Qed.

Lemma recvs_any_schedule n k c :
  recvs n (read_loop_turns k c) = recvs n c.
Proof.
  revert k c. induction n as [|n IH]; intros k c; [done|].
  destruct (reader_queue c) as [|p q] eqn:Hq.
  - destruct k as [|k]; [done|]. simpl read_loop_turns.
    destruct (reader_thread c) eqn:Ht; [|done..].
    assert (recv c = recv (read_loop_turn c)) as Hstep.
    { unfold recv at 1. rewrite Hq, Ht. unfold recv, read_loop_turn, put.
      rewrite Hq. destruct (_recv_packet (r c)) as [[packet|e] r'].
      - by destruct (is_None packet).
      - by destruct e. }
    cbn [recvs]. rewrite Hstep.
    destruct (reader_queue (read_loop_turn c)) as [|p q] eqn:Hq1.
    + assert (reader_thread (read_loop_turn c) <> Running) as Hdead.
      { revert Hq1. unfold read_loop_turn, put. rewrite Hq.
        destruct (_recv_packet (r c)) as [[packet|e] r'].
        - by destruct (is_None packet).
        - by destruct e. }
      by rewrite read_loop_turns_stopped.
    + destruct (read_loop_turns_dequeued k _ p q Hq1) as (Hc & q' & Hq').
      rewrite (recv_queued _ p q' Hq'), (recv_queued _ p q Hq1), <- Hc.
      by rewrite IH.
  - destruct (read_loop_turns_dequeued k _ p q Hq) as (Hc & q' & Hq').
    cbn [recvs].
    rewrite (recv_queued _ p q' Hq'), (recv_queued _ p q Hq), <- Hc.
    by rewrite IH.
Qed.

(** The peer has closed and nothing is left to read. *)
Lemma recvs_hung_up c n :
  r c = [] -> reader_queue c = [] -> reader_thread c = Running ->
  recvs (S n) c = Returns PyNone :: repeat Blocks n.
Proof.
  intros Hr Hq Ht.
  assert (read_loop_turn c = mkActive [] (w c) [PyNone] Finished) as Hturn.
  { unfold read_loop_turn. rewrite Hr, _recv_packet_eof. simpl. by rewrite Hq. }
  simpl. unfold recv. rewrite Hq, Ht, Hturn. simpl.
  by rewrite recvs_blocked.
Qed.

(** The peer has sent whole frames, none of them a pickled [None], and has
    closed: the values come out in order, then the sentinel, once. *)
Lemma recvs_after_clean_close vs frames c n :
  Forall2 (fun v frame =>
             v <> PyNone /\
             exists prefix data,
               unpack_Q prefix = Ok (len data) /\ loads data = Ok v /\
               frame = prefix ++ data) vs frames ->
  r c = concat frames -> reader_queue c = [] -> reader_thread c = Running ->
  recvs (length vs + S n) c
    = map Returns vs ++ Returns PyNone :: repeat Blocks n.
Proof.
  intros Hfr. revert c.
  induction Hfr as [|v frame vs frames (Hv & prefix & data & Hu & Hl & ->) _ IH];
    intros c Hr Hq Ht.
  - by apply recvs_hung_up.
  - assert (read_loop_turn c = mkActive (concat frames) (w c) [v] Running)
      as Hturn.
    { unfold read_loop_turn. rewrite Hr. cbn [concat].
      rewrite <- app_assoc, _recv_packet_frame, Hl by done.
      destruct v; try done; by rewrite Hq. }
    cbn [length Nat.add recvs map app]. unfold recv at 1.
    rewrite Hq, Ht, Hturn. cbn [reader_queue r w reader_thread].
    f_equal. by apply IH.
Qed.

(** C2, as amended.  After the peer has closed its end cleanly, with
    nothing waiting on the stream or in the queue, the next [recv] with no
    timeout returns the closed sentinel, whether the reader thread has had
    its last turn already or not; the sentinel is put once only, and every
    later [recv] with no timeout blocks for ever. *)
Theorem sentinel_once c n :
  r c = [] -> reader_queue c = [] -> reader_thread c = Running ->
  recvs (S n) c = Returns PyNone :: repeat Blocks n /\
  recvs (S n) (_read_loop c) = Returns PyNone :: repeat Blocks n.
Proof.
  intros Hr Hq Ht. split.
  - by apply recvs_hung_up.
  - unfold _read_loop. rewrite recvs_any_schedule. by apply recvs_hung_up.
Qed.
End Closed.

(** ** The process group *)

(** C5.  On POSIX [add_child] does nothing, so two calls with the same
    process succeed.  On Windows, once the process is open, [add_child]
    returns what [AssignProcessToJobObject] returns, returns [None] when that
    call fails with an [OSError] whose [winerror] is 5, and lets every other
    exception of that call through; so two calls with the same process
    succeed whenever the system answers each assignment with success or
    with error 5. *)
Theorem add_child_twice :
  (forall S (self : Posix.ProcessGroup) pid (s : S),
     (_ <- Posix.add_child self pid ;; Posix.add_child self pid) s
       = (Ok PyNone, s))
  /\
  (forall W HANDLE (api : Windows.winapi W HANDLE)
          (self : Windows.ProcessGroup HANDLE) pid hp s s1 s2,
     Windows.OpenProcess Windows.PROCESS_ALL_ACCESS false pid s = (Ok hp, s1) ->
     (forall x,
        Windows.AssignProcessToJobObject (Windows.h_job self) hp s1 = (Ok x, s2) ->
        Windows.add_child self pid s = (Ok x, s2))
     /\
     (forall msg,
        Windows.AssignProcessToJobObject (Windows.h_job self) hp s1
          = (Raise (OSError (Some 5) msg), s2) ->
        Windows.add_child self pid s = (Ok PyNone, s2))
     /\
     (forall e,
        Windows.AssignProcessToJobObject (Windows.h_job self) hp s1
          = (Raise e, s2) ->
        (forall msg, e <> OSError (Some 5) msg) ->
        Windows.add_child self pid s = (Raise e, s2)))
  /\
  (forall W HANDLE (api : Windows.winapi W HANDLE)
          (self : Windows.ProcessGroup HANDLE) pid hp s s1 r1 s2 hp' s3 r2 s4,
     Windows.OpenProcess Windows.PROCESS_ALL_ACCESS false pid s = (Ok hp, s1) ->
     Windows.AssignProcessToJobObject (Windows.h_job self) hp s1 = (r1, s2) ->
     ((exists x, r1 = Ok x) \/ (exists msg, r1 = Raise (OSError (Some 5) msg))) ->
     Windows.OpenProcess Windows.PROCESS_ALL_ACCESS false pid s2 = (Ok hp', s3) ->
     Windows.AssignProcessToJobObject (Windows.h_job self) hp' s3 = (r2, s4) ->
     ((exists x, r2 = Ok x) \/ (exists msg, r2 = Raise (OSError (Some 5) msg))) ->
     exists x y,
       Windows.add_child self pid s = (Ok x, s2) /\
       Windows.add_child self pid s2 = (Ok y, s4)).
Proof.
  assert (forall W HANDLE (api : Windows.winapi W HANDLE)
            (self : Windows.ProcessGroup HANDLE) pid hp s s1 r1 s2,
     Windows.OpenProcess Windows.PROCESS_ALL_ACCESS false pid s = (Ok hp, s1) ->
     Windows.AssignProcessToJobObject (Windows.h_job self) hp s1 = (r1, s2) ->
     Windows.add_child self pid s =
       (match r1 with
        | Raise (OSError winerror _) =>
            if decide (winerror = Some 5) then Ok PyNone else r1
        | _ => r1
        end, s2)) as Hcall.
  { intros W HANDLE api self pid hp s s1 r1 s2 Hopen Hassign.
    unfold Windows.add_child, bind, try_except. rewrite Hopen, Hassign.
    destruct r1 as [x|e]; [done|].
    destruct e as [|winerror msg| | | | | | | | | | |]; try done.
    by destruct (decide (winerror = Some 5)). }
  split; [done|]. split.
  - intros W HANDLE api self pid hp s s1 s2 Hopen. repeat split.
    + intros x Ha. by rewrite (Hcall _ _ _ _ _ _ _ _ _ _ Hopen Ha).
    + intros msg Ha. rewrite (Hcall _ _ _ _ _ _ _ _ _ _ Hopen Ha).
      by destruct (decide (Some 5 = Some 5)).
    + intros e Ha Hne. rewrite (Hcall _ _ _ _ _ _ _ _ _ _ Hopen Ha).
      destruct e as [|winerror msg| | | | | | | | | | |]; try done.
      destruct (decide (winerror = Some 5)) as [->|]; [|done].
      by destruct (Hne msg).
  - intros W HANDLE api self pid hp s s1 r1 s2 hp' s3 r2 s4
      Hopen1 Ha1 Hr1 Hopen2 Ha2 Hr2.
    rewrite (Hcall _ _ _ _ _ _ _ _ _ _ Hopen1 Ha1).
    rewrite (Hcall _ _ _ _ _ _ _ _ _ _ Hopen2 Ha2).
    destruct Hr1 as [[x ->]|[msg1 ->]]; destruct Hr2 as [[y ->]|[msg2 ->]];
      repeat match goal with
             | |- context [decide (Some 5 = Some 5)] =>
                 destruct (decide (Some 5 = Some 5)); [|done]
             end; eauto.
Qed.

(** ** The terminal guard *)

(** C8.  [snapshot_termios(fd)] returns the attributes of the terminal when
    [fd] is one and [None] when it is not, and changes nothing.
    [restore_termios(fd, state)] discards the queued input and output of
    the terminal and sets its attributes to [state] when [fd] is a terminal
    and [state] is not [None]; in every other case it changes nothing. *)
Theorem termios_guard fd k :
  match tty_of k fd with
  | Some (dev, t) =>
      Posix.snapshot_termios fd k = (Ok (Some (attr t)), k) /\
      (forall st, Posix.restore_termios fd (Some st) k
                    = (Ok tt, set_ttys <[dev := mkTty st [] []]> k)) /\
      Posix.restore_termios fd None k = (Ok tt, k)
  | None =>
      Posix.snapshot_termios fd k = (Ok None, k) /\
      (forall state, Posix.restore_termios fd state k = (Ok tt, k))
  end.
Proof.
  unfold Posix.snapshot_termios, Posix.restore_termios, bind, os_isatty,
    tcgetattr, tcflush, tcsetattr.
  destruct (tty_of k fd) as [[dev t]|] eqn:Htty.
  - rewrite bool_decide_eq_true_2 by eauto. rewrite Htty.
    split; [done|]. split; [|done]. intros st.
    assert (tty_of (set_ttys <[dev := mkTty (attr t) [] []]> k) fd
            = Some (dev, mkTty (attr t) [] [])) as ->.
    { unfold tty_of in *. simpl.
      destruct (fdtab k !! fd) as [[[] ?]|]; try done.
      destruct (ttys k !! dev0) eqn:Hd; [|done].
      injection Htty as <- <-. by rewrite lookup_insert_eq. }
    unfold set_ttys. simpl. by rewrite insert_insert_eq.
  - rewrite bool_decide_eq_false_2 by (by intros [? ?]).
    split; [done|]. by intros [st|].
Qed.

(** ** Pipe *)

Lemma lowest_free_Some k fd :
  lowest_free k = Some fd -> fdtab k !! fd = None /\ (fd < nofile k)%nat.
Proof.
  unfold lowest_free. intros Hf. apply find_some in Hf as [Hin Hfree].
  apply bool_decide_eq_true_1 in Hfree. apply in_seq in Hin. split; [done | lia].
Qed.

Lemma alloc_fd_Ok f k fd k' :
  alloc_fd f k = (Ok fd, k') ->
  fdtab k !! fd = None /\ k' = set_fdtab <[fd := mkDesc f false]> k.
Proof.
  unfold alloc_fd. destruct (lowest_free k) as [fd'|] eqn:Hf; [|done].
  intros [= <- <-]. by apply lowest_free_Some in Hf as [? ?].
Qed.

(** A successful [os.pipe()] opens two descriptors that were closed, one on
    each end of a pipe that did not exist. *)
Lemma os_pipe_Ok k rfd wfd k' :
  os_pipe k = (Ok (rfd, wfd), k') ->
  let p := fresh (dom (pipes k)) in
  fdtab k !! rfd = None /\ fdtab k !! wfd = None /\ rfd <> wfd /\
  pipes k !! p = None /\
  k' = mkKernel
         (<[wfd := mkDesc (PipeWriter p) false]>
            (<[rfd := mkDesc (PipeReader p) false]> (fdtab k)))
         (ttys k) (<[p := []]> (pipes k)) (nofile k).
Proof.
  unfold os_pipe, bind, get, try_except.
  destruct (alloc_fd (PipeReader (fresh (dom (pipes k)))) k)
    as [[r0|e] k1] eqn:Hr; [|done].
  apply alloc_fd_Ok in Hr as [Hr ->].
  destruct (alloc_fd (PipeWriter (fresh (dom (pipes k)))) _)
    as [[w0|e] k2] eqn:Hw.
  - apply alloc_fd_Ok in Hw as [Hw ->]. simpl in Hw.
    unfold modify, ret. intros [= <- <- <-].
    assert (r0 <> w0) as Hne by (intros ->; by rewrite lookup_insert_eq in Hw).
    rewrite lookup_insert_ne in Hw by done.
    repeat split; try done.
    apply not_elem_of_dom, is_fresh.
  - destruct (os_close r0 k2) as [[[]|?] ?]; by intros [=].
Qed.

Lemma os_pipe_room k :
  (exists a b, a <> b /\ (a < nofile k)%nat /\ (b < nofile k)%nat /\
               fdtab k !! a = None /\ fdtab k !! b = None) ->
  exists rfd wfd k', os_pipe k = (Ok (rfd, wfd), k').
Proof.
  intros (a & b & Hab & Ha & Hb & Hfa & Hfb).
  assert (forall k0 x, (x < nofile k0)%nat -> fdtab k0 !! x = None ->
                       exists fd, lowest_free k0 = Some fd) as Hfree.
  { intros k0 x Hx Hfx. unfold lowest_free.
    destruct (find _ _) as [fd|] eqn:Hf; [eauto|].
    eapply find_none with (x := x) in Hf; [|apply in_seq; lia].
    by rewrite bool_decide_eq_true_2 in Hf. }
  unfold os_pipe, bind, get, try_except, alloc_fd.
  destruct (Hfree k a Ha Hfa) as [rfd Hr]. rewrite Hr.
  apply lowest_free_Some in Hr as Hr'.
  destruct (decide (rfd = a)) as [->|Hne].
  - destruct (Hfree (set_fdtab <[a := mkDesc (PipeReader (fresh (dom (pipes k)))) false]> k) b)
      as [wfd Hw]; [done | by simpl; rewrite lookup_insert_ne |].
    rewrite Hw. unfold modify, ret. eauto.
  - destruct (Hfree (set_fdtab <[rfd := mkDesc (PipeReader (fresh (dom (pipes k)))) false]> k) a)
      as [wfd Hw]; [done | by simpl; rewrite lookup_insert_ne |].
    rewrite Hw. unfold modify, ret. eauto.
Qed.

(** C9.  For the pair that [Pipe()] returns: in each Connection the
    descriptor to read from is not the descriptor to write to; the four
    descriptors are different from one another and stand for the two ends
    of two different pipes, each Connection reading from one pipe and
    writing to the other; and the remote descriptors of each Connection are
    the local descriptors of the other. *)
Theorem Pipe_wiring k c1 c2 k' :
  Pipe k = (Ok (c1, c2), k') ->
  r_fd c1 <> w_fd c1 /\ r_fd c2 <> w_fd c2 /\
  NoDup [r_fd c1; w_fd c1; r_fd c2; w_fd c2] /\
  (exists p q, p <> q /\
     file_of <$> fdtab k' !! r_fd c1 = Some (PipeReader p) /\
     file_of <$> fdtab k' !! w_fd c2 = Some (PipeWriter p) /\
     file_of <$> fdtab k' !! r_fd c2 = Some (PipeReader q) /\
     file_of <$> fdtab k' !! w_fd c1 = Some (PipeWriter q)) /\
  remote_r_fd c1 = r_fd c2 /\ remote_w_fd c1 = w_fd c2 /\
  remote_r_fd c2 = r_fd c1 /\ remote_w_fd c2 = w_fd c1.
Proof.
  unfold Pipe, bind. intros HP.
  destruct (os_pipe k) as [[[c2pr c2pw]|e] k1] eqn:H1; [|done].
  destruct (os_pipe k1) as [[[p2cr p2cw]|e] k2] eqn:H2; [|done].
  unfold ret in HP. injection HP as <- <- <-. simpl.
  apply os_pipe_Ok in H1 as (Hr1 & Hw1 & Hne1 & Hp1 & ->).
  apply os_pipe_Ok in H2 as (Hr2 & Hw2 & Hne2 & Hp2 & ->). simpl in *.
  assert (p2cr <> c2pw) by (intros ->; by rewrite lookup_insert_eq in Hr2).
  assert (p2cw <> c2pw) by (intros ->; by rewrite lookup_insert_eq in Hw2).
  rewrite lookup_insert_ne in Hr2, Hw2 by done.
  assert (p2cr <> c2pr) by (intros ->; by rewrite lookup_insert_eq in Hr2).
  assert (p2cw <> c2pr) by (intros ->; by rewrite lookup_insert_eq in Hw2).
  split; [done|]. split; [done|]. split.
  { repeat apply NoDup_cons_2; try apply NoDup_nil_2;
      rewrite ?elem_of_cons, ?elem_of_nil; intuition congruence. }
  split; [|done].
  exists (fresh (dom (pipes k))),
         (fresh (dom (<[fresh (dom (pipes k)) := []]> (pipes k)))).
  split.
  { intros Heq. rewrite <- Heq in Hp2. by rewrite lookup_insert_eq in Hp2. }
  repeat split;
    repeat (rewrite lookup_insert_ne by congruence);
    by rewrite lookup_insert_eq.
Qed.

(** ** The bootstrap packet *)

Lemma set_inheritable_Ok fd k k' :
  set_inheritable fd k = (Ok tt, k') ->
  ttys k' = ttys k /\ pipes k' = pipes k /\
  (forall fd', file_of <$> fdtab k' !! fd' = file_of <$> fdtab k !! fd') /\
  inheritable <$> fdtab k' !! fd = Some true /\
  (forall fd', inheritable <$> fdtab k !! fd' = Some true ->
               inheritable <$> fdtab k' !! fd' = Some true).
Proof.
  unfold set_inheritable, bind, os_get_inheritable, os_set_inheritable.
  destruct (fdtab k !! fd) as [[f inh]|] eqn:Hfd; [|done]. simpl.
  destruct inh.
  - intros [= <-]. rewrite Hfd. done.
  - rewrite Hfd. intros [= <-]. simpl. repeat split.
    + intros fd'. destruct (decide (fd = fd')) as [<-|].
      * by rewrite lookup_insert_eq, Hfd.
      * by rewrite lookup_insert_ne.
    + by rewrite lookup_insert_eq.
    + intros fd' Hinh. destruct (decide (fd = fd')) as [<-|].
      * by rewrite lookup_insert_eq.
      * by rewrite lookup_insert_ne.
Qed.

Lemma for_each_set_inheritable l k k' :
  for_each set_inheritable l k = (Ok tt, k') ->
  ttys k' = ttys k /\ pipes k' = pipes k /\
  (forall fd, file_of <$> fdtab k' !! fd = file_of <$> fdtab k !! fd) /\
  (forall fd, fd ∈ l -> inheritable <$> fdtab k' !! fd = Some true) /\
  (forall fd, inheritable <$> fdtab k !! fd = Some true ->
              inheritable <$> fdtab k' !! fd = Some true).
Proof.
  revert k. induction l as [|fd0 l IH]; intros k.
  - intros [= <-]. repeat split; try done. intros fd Hin. by apply elem_of_nil in Hin.
  - simpl. unfold bind.
    destruct (set_inheritable fd0 k) as [[[]|e] k1] eqn:H1; [|done].
    intros Hrest.
    apply set_inheritable_Ok in H1 as (Ht1 & Hp1 & Hf1 & Hi1 & Hk1).
    apply IH in Hrest as (Ht & Hp & Hf & Hi & Hk).
    repeat split; try congruence.
    + intros fd [->|Hin]%elem_of_cons; [by apply Hk | by apply Hi].
    + intros fd Hinh. by apply Hk, Hk1.
Qed.

Lemma rsplit_dot_no_dot s :
  ~ In "."%char (String.list_ascii_of_string s) -> rsplit_dot s = None.
Proof.
  induction s as [|c s IH]; simpl; [done|]. intros Hn.
  rewrite IH by tauto.
  destruct (Ascii.eqb_spec c "."%char) as [->|]; [tauto | done].
Qed.

(** [rsplit('.', 1)] cuts at the last dot. *)
Lemma rsplit_dot_append a b :
  ~ In "."%char (String.list_ascii_of_string b) ->
  rsplit_dot (String.append a (String "." b)) = Some (a, b).
Proof.
  intros Hb. induction a as [|c a IH]; simpl.
  - by rewrite (rsplit_dot_no_dot b Hb).
  - by rewrite IH.
Qed.

Section Bootstrap.
Context `{Pickle} `{Importlib} {Popen_t : Type} `{Subprocess Popen_t}.

(** [spawn_main] once the packet is read. *)
Lemma spawn_main_after_packet ps fd p inh content prep spec kwargs rest :
  fdtab (os ps) !! fd = Some (mkDesc (PipeReader p) inh) ->
  pipes (os ps) !! p = Some content ->
  load content = (Ok (PyList [PyDict prep; spec; kwargs]), rest) ->
  spawn_main fd ps =
    match spec with
    | PyStr s =>
        names <- lift (unpack2 (rsplit1 s)) ;;
        let '(modname, funcname) := names in
        module <- import_module modname ;;
        func <- getattr module funcname ;;
        _ <- call func kwargs ;;
        raise (SystemExit 0)
    | _ => raise AttributeError
    end
      (mkProcess (set_fdtab (delete fd) (set_pipes <[p := rest]> (os ps)))
         (match dict_get "sys.argv" prep with
          | Some v => set_argv v (interp ps)
          | None => interp ps
          end)).
Proof.
  intros Hfd Hp Hload. destruct ps as [k s]. cbn [os interp] in *.
  unfold spawn_main, Posix.open_handle, on_os, on_sys, os_fdopen,
    file_load, os_close.
  unfold bind at 1.
  repeat (progress cbn [os interp default from_option id py_iter unpack3 fdtab set_pipes]
          || rewrite Hfd || rewrite Hp || rewrite Hload
          || (unfold bind at 1; unfold lift at 1)).
  unfold prepare, bind at 1, lift. cbn [py_contains py_getitem os interp].
  destruct (dict_get "sys.argv" prep) as [v|];
    [rewrite bool_decide_eq_true_2 by eauto
    |rewrite bool_decide_eq_false_2 by (by intros [? ?])]; reflexivity.
Qed.

(** C3, as amended.  The bootstrap packet has no length prefix.  [spawn]
    writes into the new pipe exactly the pickle of
    [[preparation_data, spec, kwargs]] and closes the writing end: the
    descriptor that [os.pipe()] gave for it is closed, and no descriptor of
    the process is a writing end of the pipe any more; the reading end is
    open and inheritable.  [spawn_main], in a process that has this reading
    end, gives the stream as it is to [pickle.load], which reads the one
    object that is there: with what [pickle.load] makes of the bytes of
    [pickle.dumps], [spawn_main] goes on to the target with the
    [sys.argv] of the parent, the pipe being empty and closed. *)
Theorem bootstrap_packet_unframed spec kwargs pass_fds ps proc ps' :
  spawn spec kwargs pass_fds ps = (Ok proc, ps') ->
  let p := fresh (dom (pipes (os ps))) in
  let packet :=
    PyList [PyDict [("sys.argv"%string, argv (interp ps))]; spec; kwargs] in
  exists rfd wfd k1 data,
    os_pipe (os ps) = (Ok (rfd, wfd), k1) /\
    dumps packet = Ok data /\
    pipes (os ps) !! p = None /\
    pipes (os ps') !! p = Some data /\
    file_of <$> fdtab (os ps') !! rfd = Some (PipeReader p) /\
    inheritable <$> fdtab (os ps') !! rfd = Some true /\
    fdtab (os ps') !! wfd = None /\
    ((forall fd d, fdtab (os ps) !! fd = Some d -> file_of d <> PipeWriter p) ->
     forall fd d, fdtab (os ps') !! fd = Some d -> file_of d <> PipeWriter p) /\
    (forall child inh,
       fdtab (os child) !! rfd = Some (mkDesc (PipeReader p) inh) ->
       pipes (os child) !! p = Some data ->
       load data = (Ok packet, []) ->
       spawn_main rfd child =
         match spec with
         | PyStr s =>
             names <- lift (unpack2 (rsplit1 s)) ;;
             let '(modname, funcname) := names in
             module <- import_module modname ;;
             func <- getattr module funcname ;;
             _ <- call func kwargs ;;
             raise (SystemExit 0)
         | _ => raise AttributeError
         end
           (mkProcess
              (set_fdtab (delete rfd) (set_pipes <[p := []]> (os child)))
              (set_argv (argv (interp ps)) (interp child)))).
Proof.
  intros Hspawn p packet. destruct ps as [k s]. cbn [os interp] in *.
  revert Hspawn.
  unfold spawn, on_os, on_sys, get_preparation_data.
  unfold bind, get, ret, lift. cbn [os interp].
  destruct (os_pipe k) as [[[rfd wfd]|e] k1] eqn:Hpipe; [|done].
  destruct (os_pipe_Ok _ _ _ _ Hpipe) as (Hr & Hw & Hne & Hp & Hk1).
  destruct (for_each set_inheritable ([rfd] ++ pass_fds) _)
    as [[[]|e] k2] eqn:Hinh; [|done].
  apply for_each_set_inheritable in Hinh as (_ & Hp2 & Hf2 & Hi2 & _).
  rewrite Hk1 in Hp2, Hf2. cbn [os interp fdtab pipes] in *.
  cbv zeta.
  match goal with
  | |- context [Popen ?args false] =>
      destruct (Popen args false) as [proc'|e]; [|done]
  end.
  unfold os_fdopen, file_write, os_close. cbn [os interp].
  pose proof (Hf2 wfd) as Hwfd. rewrite lookup_insert_eq in Hwfd.
  destruct (fdtab k2 !! wfd) as [[f inh]|] eqn:Hk2w; [|done].
  injection Hwfd as ->.
  fold p. fold packet.
  destruct (dumps packet) as [data|e] eqn:Hd; [|done].
  cbn [os interp fdtab set_pipes]. rewrite Hk2w.
  cbn [os interp fdtab set_pipes]. rewrite Hk2w.
  intros [= <- <-].
  exists rfd, wfd, k1, data. subst p.
  cbn [os interp fdtab pipes set_fdtab set_pipes].
  rewrite Hp2, !lookup_insert_eq. cbn [default from_option id app].
  split; [done|]. split; [done|]. split; [done|]. split; [done|].
  split; [|split; [|split; [|split]]].
  - rewrite lookup_delete_ne, Hf2 by done.
    by rewrite lookup_insert_ne, lookup_insert_eq.
  - rewrite lookup_delete_ne by done. apply Hi2. set_solver.
  - by rewrite lookup_delete_eq.
  - intros Hnone fd d Hfd Hfile.
    destruct (decide (fd = wfd)) as [->|Hfw];
      [by rewrite lookup_delete_eq in Hfd|].
    rewrite lookup_delete_ne in Hfd by done.
    pose proof (Hf2 fd) as Hsame. rewrite Hfd in Hsame.
    rewrite lookup_insert_ne in Hsame by done.
    destruct (decide (fd = rfd)) as [->|Hfr].
    + rewrite lookup_insert_eq in Hsame. simpl in Hsame. congruence.
    + rewrite lookup_insert_ne in Hsame by done.
      destruct (fdtab k !! fd) as [d0|] eqn:Hk; [|done].
      simpl in Hsame. apply (Hnone fd d0 Hk). congruence.
  - intros child inh' Hfd Hpipe' Hload.
    rewrite (spawn_main_after_packet child rfd _ inh' data
               [("sys.argv"%string, argv s)] spec kwargs [] Hfd Hpipe' Hload).
    reflexivity.
Qed.

(** C6.  With a whole bootstrap packet on the pipe, [spawn_main] puts the
    transmitted [sys.argv] in place when the preparation data have one,
    imports the module named by what precedes the last dot of the target,
    takes from it the attribute named by what follows that dot, calls it
    with the transmitted keyword arguments and, when the call returns,
    leaves through [sys.exit(0)]. *)
Theorem spawn_main_runs_target
    ps fd p inh content prep modname funcname kwargs rest module f ps1 x ps2 :
  fdtab (os ps) !! fd = Some (mkDesc (PipeReader p) inh) ->
  pipes (os ps) !! p = Some content ->
  load content =
    (Ok (PyList [PyDict prep;
                 PyStr (String.append modname (String "." funcname));
                 PyDict kwargs]), rest) ->
  ~ In "."%char (String.list_ascii_of_string funcname) ->
  let ps0 :=
    mkProcess (set_fdtab (delete fd) (set_pipes <[p := rest]> (os ps)))
              (match dict_get "sys.argv" prep with
               | Some v => set_argv v (interp ps)
               | None => interp ps
               end) in
  import_module modname ps0 = (Ok module, ps1) ->
  module !! funcname = Some (Function f) ->
  f kwargs ps1 = (Ok x, ps2) ->
  spawn_main fd ps = (Raise (SystemExit 0), ps2).
Proof.
  intros Hfd Hp Hload Hdot ps0 Himport Hattr Hcall.
  destruct ps as [k s]. cbn [os interp] in *.
  unfold spawn_main, Posix.open_handle, bind, on_os, on_sys, os_fdopen,
    file_load, os_close, lift.
  repeat (progress cbn [os interp default from_option id py_iter unpack3 fdtab set_pipes]
          || rewrite Hfd || rewrite Hp || rewrite Hload).
  unfold prepare, bind, lift. cbn [py_contains py_getitem os interp].
  subst ps0. cbn [os interp] in Himport.
  destruct (dict_get "sys.argv" prep) as [v|];
    [rewrite bool_decide_eq_true_2 by eauto
    |rewrite bool_decide_eq_false_2 by (by intros [? ?])];
    unfold modify, ret, rsplit1;
    rewrite (rsplit_dot_append _ _ Hdot); cbn [unpack2];
    rewrite Himport; unfold getattr; rewrite Hattr; unfold ret, call;
    by rewrite Hcall.
Qed.
End Bootstrap.

(** * Runs on the sample host *)

Section Runs.
Import Sample Pickle2.

(** The prefix announces 3 bytes and 2 come; the prefix announces 2^63
    bytes and a whole frame follows. *)
Lemma partial_frame_witness :
  Limited._read_loop
    (mkActive ([x03; x00; x00; x00; x00; x00; x00; x00] ++ [x80; x02])
       idle [PyInt 1] Running)
  = mkActive [] idle [PyInt 1]
      (Died (IOError "got end of file during message")) /\
  Limited._read_loop
    (mkActive ([x00; x00; x00; x00; x00; x00; x00; x80]
                 ++ [x04; x00; x00; x00; x00; x00; x00; x00;
                     x80; x02; x4e; x2e])
       idle [PyInt 1] Running)
  = mkActive [x04; x00; x00; x00; x00; x00; x00; x00; x80; x02; x4e; x2e]
      idle [PyInt 1] (Died OverflowError).
Proof.
  pose proof (partial_frame [x03; x00; x00; x00; x00; x00; x00; x00] 3
                [x80; x02] idle [PyInt 1] eq_refl ltac:(lia) eq_refl)
    as Hsmall.
  pose proof (partial_frame [x00; x00; x00; x00; x00; x00; x00; x80] (2 ^ 63)
                [x04; x00; x00; x00; x00; x00; x00; x00; x80; x02; x4e; x2e]
                idle [PyInt 1] eq_refl ltac:(lia) eq_refl)
    as Hlarge.
  cbv zeta in Hsmall, Hlarge.
  destruct Hsmall as [Hgranted _]. destruct Hlarge as [_ Hrefused].
  split.
  - apply Hgranted; [|vm_compute; reflexivity | discriminate].
    intros n Hn. unfold Limited.refuses, memory.
    destruct (Z.leb_spec (2 ^ 63 - 1) n); [lia|].
    destruct (Z.ltb_spec (2 ^ 32) n); [lia | reflexivity].
  - apply (Hrefused Limited.TooLarge). reflexivity.
Defined.

(** C1, counterexample.  The prefix announces 1 byte and the stream ends
    there: [_recv_packet] raises [EOFError], and [_read_loop] puts the
    closed sentinel and returns, as after a clean close.  It is so on a
    host that grants every read and on the sample host. *)
Lemma prefix_alone_closes_cleanly :
  unpack_Q [x01; x00; x00; x00; x00; x00; x00; x00] = Ok 1 /\
  _recv_packet [x01; x00; x00; x00; x00; x00; x00; x00] = (Raise EOFError, []) /\
  _read_loop (mkActive [x01; x00; x00; x00; x00; x00; x00; x00] idle [] Running)
  = mkActive [] idle [PyNone] Finished /\
  Limited._recv_packet [x01; x00; x00; x00; x00; x00; x00; x00]
  = (Raise EOFError, []) /\
  Limited._read_loop
    (mkActive [x01; x00; x00; x00; x00; x00; x00; x00] idle [] Running)
  = mkActive [] idle [PyNone] Finished.
Proof. repeat split; vm_compute; reflexivity. Qed.

Lemma truncated_prefix_witness :
  _read_loop (mkActive [x05; x00; x00] idle [] Running)
  = mkActive [] idle [] (Died struct_error).
Proof.
  apply (truncated_prefix [x05; x00; x00] idle []).
  vm_compute. split; reflexivity.
Defined.

Lemma send_returns_bytes_written_witness :
  exists frame c',
    send (PyList [PyInt 1; PyStr "go"]) hung_up = (Ok 23, c') /\
    flushed (w c') = frame /\ pending (w c') = [] /\ len frame = 23.
Proof.
  destruct (send_returns_bytes_written (PyList [PyInt 1; PyStr "go"])
              [x80; x02; x5d; x28; x4b; x01; x58; x02; x00; x00; x00;
               x67; x6f; x65; x2e] hung_up)
    as (frame & c' & Hs & Hf & Hp & Hl);
    [reflexivity | vm_compute; reflexivity |].
  exists frame, c'. exact (conj Hs (conj Hf (conj Hp Hl))).
Defined.

Lemma send_recv_roundtrip_witness :
  exists frame c',
    send (PyList [PyInt 1; PyStr "go"]) hung_up = (Ok 23, c') /\
    flushed (w c') = frame /\
    _recv_packet (frame ++ [x00]) = (Ok (PyList [PyInt 1; PyStr "go"]), [x00]).
Proof.
  destruct (send_recv_roundtrip (PyList [PyInt 1; PyStr "go"])
              [x80; x02; x5d; x28; x4b; x01; x58; x02; x00; x00; x00;
               x67; x6f; x65; x2e] hung_up [x00])
    as (frame & c' & Hs & Hf & Hr);
    [reflexivity | reflexivity | vm_compute; reflexivity |].
  exists frame, c'. exact (conj Hs (conj Hf Hr)).
Defined.

Lemma sentinel_once_witness :
  recvs 4 hung_up = [Returns PyNone; Blocks; Blocks; Blocks].
Proof. apply (sentinel_once hung_up 3); reflexivity. Defined.

(** C2, counterexample.  The two ends of a [Pipe()], the first one
    activated, the peer closing without a word: the first [recv] returns
    the closed sentinel, the second one never returns. *)
Lemma second_recv_blocks :
  match Pipe console with
  | (Ok (c1, _), k) =>
      match activate c1 [] k with
      | (Ok c, _) => recvs 2 c = [Returns PyNone; Blocks]
      | _ => False
      end
  | _ => False
  end.
Proof. vm_compute. reflexivity. Qed.

Lemma add_child_twice_witness :
  exists x y,
    Windows.add_child (Windows.mkProcessGroup Z 1) 77 [] = (Ok x, [77]) /\
    Windows.add_child (Windows.mkProcessGroup Z 1) 77 [77] = (Ok y, [77]).
Proof.
  apply (proj2 (proj2 add_child_twice) (list Z) Z winapi
           (Windows.mkProcessGroup Z 1) 77
           77 [] [] (Ok (PyBool true)) [77]
           77 [77] (Raise (OSError (Some 5) "Access is denied")) [77]);
    [reflexivity | reflexivity | left; eauto
    | reflexivity | reflexivity | right; eauto].
Defined.

Lemma Pipe_wiring_witness :
  exists k',
    Pipe console = (Ok (mkConnection 3 6 5 4, mkConnection 5 4 3 6), k') /\
    NoDup [3; 6; 5; 4]%nat.
Proof.
  eexists. split; [vm_compute; reflexivity|].
  eapply (Pipe_wiring console (mkConnection 3 6 5 4) (mkConnection 5 4 3 6)).
  vm_compute. reflexivity.
Defined.

(** Descriptor 1 is the console, in raw mode with queued bytes; descriptor 7
    is not open. *)
Lemma termios_guard_witness :
  Posix.snapshot_termios 1 console = (Ok (Some raw), console) /\
  Posix.restore_termios 1 (Some cooked) console
    = (Ok tt, set_ttys <[0%nat := mkTty cooked [] []]> console) /\
  Posix.restore_termios 1 None console = (Ok tt, console) /\
  Posix.snapshot_termios 7 console = (Ok None, console) /\
  Posix.restore_termios 7 (Some cooked) console = (Ok tt, console).
Proof.
  pose proof (termios_guard 1 console) as H1.
  pose proof (termios_guard 7 console) as H7.
  change (tty_of console 1) with (Some (0%nat, mkTty raw [x71] [x0a])) in H1.
  change (tty_of console 7) with (@None (nat * tty)) in H7.
  destruct H1 as (Hs & Hr & Hn). destruct H7 as (Hs7 & Hr7).
  exact (conj Hs (conj (Hr cooked) (conj Hn (conj Hs7 (Hr7 (Some cooked)))))).
Defined.

Lemma bootstrap_packet_unframed_witness :
  exists k1 data,
    os_pipe (os supervisor) = (Ok (3%nat, 4%nat), k1) /\
    dumps (PyList [PyDict [("sys.argv"%string, argv (interp supervisor))];
                   PyStr "pkg.app.main";
                   PyDict [("n"%string, PyInt 7)]]) = Ok data /\
    pipes (os after_spawn) !! 0%nat = Some data /\
    inheritable <$> fdtab (os after_spawn) !! 3%nat = Some true /\
    fdtab (os after_spawn) !! 4%nat = None /\
    (forall fd d, fdtab (os after_spawn) !! fd = Some d ->
                  file_of d <> PipeWriter 0) /\
    fst (spawn_main 3 worker) = Raise (SystemExit 0).
Proof.
  destruct (bootstrap_packet_unframed (PyStr "pkg.app.main")
              (PyDict [("n"%string, PyInt 7)]) [] supervisor 4242%nat
              after_spawn)
    as (rfd & wfd & k1 & data & Hpipe & Hd & _ & Hp & _ & Hi & Hw & Hnone
        & Hchild);
    [vm_compute; reflexivity|].
  assert (rfd = 3%nat /\ wfd = 4%nat) as [-> ->].
  { apply (f_equal fst) in Hpipe. vm_compute in Hpipe.
    by injection Hpipe as <- <-. }
  assert (data = [x80; x02; x5d; x28; x7d; x28; x58; x08; x00; x00; x00;
                  x73; x79; x73; x2e; x61; x72; x67; x76; x5d; x28; x58;
                  x05; x00; x00; x00; x73; x65; x72; x76; x65; x58; x08;
                  x00; x00; x00; x2d; x2d; x72; x65; x6c; x6f; x61; x64;
                  x65; x75; x58; x0c; x00; x00; x00; x70; x6b; x67; x2e;
                  x61; x70; x70; x2e; x6d; x61; x69; x6e; x7d; x28; x58;
                  x01; x00; x00; x00; x6e; x4b; x07; x75; x65; x2e]) as ->.
  { vm_compute in Hd. by injection Hd as <-. }
  exists k1. eexists. split; [exact Hpipe|]. split; [exact Hd|].
  split; [exact Hp|]. split; [exact Hi|]. split; [exact Hw|]. split.
  - apply Hnone. intros fd d Hfd.
    cbn [os supervisor console fdtab] in Hfd.
    repeat (apply lookup_insert_Some in Hfd as [[_ <-]|[_ Hfd]];
            [discriminate|]).
    by rewrite lookup_empty in Hfd.
  - rewrite (Hchild worker true);
      [vm_compute; reflexivity | vm_compute; reflexivity
      | vm_compute; reflexivity | vm_compute; reflexivity].
Defined.

(** C3, counterexample.  After [spawn] the pipe holds the 76 bytes of the
    pickle and nothing before them: it begins with the [PROTO] opcode, not
    with the 8 bytes of the number 76.  And [spawn_main] does not read a
    packet that has the prefix. *)
Lemma bootstrap_packet_has_no_prefix :
  exists data,
    dumps (PyList [PyDict [("sys.argv"%string, argv (interp supervisor))];
                   PyStr "pkg.app.main";
                   PyDict [("n"%string, PyInt 7)]]) = Ok data /\
    len data = 76 /\
    pack_Q 76 = Ok [x4c; x00; x00; x00; x00; x00; x00; x00] /\
    pipes (os after_spawn) !! 0%nat = Some data /\
    take 8 data = [x80; x02; x5d; x28; x7d; x28; x58; x08] /\
    fst (spawn_main 3
           (mkProcess
              (set_pipes
                 <[0%nat := [x4c; x00; x00; x00; x00; x00; x00; x00] ++ data]>
                 (os worker))
              (interp worker)))
    = Raise PickleError.
Proof. eexists. repeat split; vm_compute; reflexivity. Qed.

Lemma spawn_main_runs_target_witness :
  exists ps2,
    spawn_main 3 worker = (Raise (SystemExit 0), ps2) /\
    argv (interp ps2)
    = PyList [PyList [PyStr "serve"; PyStr "--reload"];
              PyDict [("n"%string, PyInt 7)]].
Proof.
  eexists. split.
  - eapply (spawn_main_runs_target worker 3 0 true _
              [("sys.argv"%string, PyList [PyStr "serve"; PyStr "--reload"])]
              "pkg.app" "main" [("n"%string, PyInt 7)] [] _ main _ (PyInt 1)).
    + vm_compute. reflexivity.
    + vm_compute. reflexivity.
    + vm_compute. reflexivity.
    + simpl. intuition discriminate.
    + reflexivity.
    + reflexivity.
    + reflexivity.
  - reflexivity.
Defined.
End Runs.

(** * More of the channel *)

Section Channel.
Context `{Host} `{Pickle}.




(** X2.  A [None] that is sent is taken for the closed sentinel by the
    other side: [_read_loop] puts the sentinel and returns, and what was
    sent after it stays on the stream, unread. *)
Theorem none_closes_channel data c rest out q :
  dumps PyNone = Ok data -> loads data = Ok PyNone -> len data < 2 ^ 64 ->
  exists frame c',
    send PyNone c = (Ok (len data + 8), c') /\
    flushed (w c') = flushed (w c) ++ pending (w c) ++ frame /\
    _read_loop (mkActive (frame ++ rest) out q Running)
      = mkActive rest out (q ++ [PyNone]) Finished.
Proof.
  intros Hd Hl Hlen.
  destruct (pack_Q_fits (len data)) as [prefix Hp]; [unfold len in *; lia|].
  exists (prefix ++ data). eexists. split; [by apply send_frame|].
  split; [done|].
  assert (read_loop_turn (mkActive ((prefix ++ data) ++ rest) out q Running)
          = mkActive rest out (q ++ [PyNone]) Finished) as Hturn.
  { unfold read_loop_turn. cbn [r w reader_queue].
    rewrite <- app_assoc, _recv_packet_frame by (by apply unpack_pack).
    by rewrite Hl. }
  rewrite _read_loop_one_turn; by rewrite ?Hturn.
Qed.

(** X3.  A whole frame whose payload pickle cannot read: when the error is
    [EOFError] (a pickle cut short, an empty payload), [_read_loop] takes
    it for the end of the stream and puts the sentinel; any other error
    ends the thread and puts nothing.  Either way the rest of the stream is
    not read. *)
Theorem unreadable_payload prefix data e rest out q :
  unpack_Q prefix = Ok (len data) -> loads data = Raise e ->
  _recv_packet (prefix ++ data ++ rest) = (Raise e, rest) /\
  (e = EOFError ->
   _read_loop (mkActive (prefix ++ data ++ rest) out q Running)
     = mkActive rest out (q ++ [PyNone]) Finished) /\
  (e <> EOFError ->
   _read_loop (mkActive (prefix ++ data ++ rest) out q Running)
     = mkActive rest out q (Died e)).
Proof.
  intros Hu Hl.
  assert (_recv_packet (prefix ++ data ++ rest) = (Raise e, rest)) as Hr.
  { by rewrite _recv_packet_frame, Hl. }
  split; [done|]. split.
  - intros ->.
    rewrite _read_loop_one_turn; unfold read_loop_turn;
      cbn [r w reader_queue reader_thread]; by rewrite ?Hr.
  - intros He.
    rewrite _read_loop_one_turn; unfold read_loop_turn;
      cbn [r w reader_queue reader_thread]; rewrite ?Hr; by destruct e.
Qed.

(** Whole frames at the head of the stream come out one by one. *)
Lemma recvs_frames vs frames tail c n :
  Forall2 (fun v frame =>
             v <> PyNone /\
             exists prefix data,
               unpack_Q prefix = Ok (len data) /\ loads data = Ok v /\
               frame = prefix ++ data) vs frames ->
  r c = concat frames ++ tail -> reader_queue c = [] ->
  reader_thread c = Running ->
  recvs (length vs + n) c
    = map Returns vs ++ recvs n (mkActive tail (w c) [] Running).
Proof.
  intros Hfr. revert c.
  induction Hfr as [|v frame vs frames (Hv & prefix & data & Hu & Hl & ->) _ IH];
    intros c Hr Hq Ht.
  - simpl in *. f_equal. destruct c; simpl in *; by subst.
  - assert (read_loop_turn c
            = mkActive (concat frames ++ tail) (w c) [v] Running) as Hturn.
    { unfold read_loop_turn. rewrite Hr. cbn [concat].
      rewrite <- !app_assoc, _recv_packet_frame, Hl by done.
      destruct v; try done; by rewrite Hq. }
    cbn [length Nat.add recvs map app]. unfold recv at 1.
    rewrite Hq, Ht, Hturn. cbn [reader_queue r w reader_thread].
    f_equal.
    apply (IH (mkActive (concat frames ++ tail) (w c) [] Running)); reflexivity.
Qed.

(** X4.  Good frames and then a frame that is cut short, or anything else
    that makes [_recv_packet] raise an exception other than [EOFError]: the
    values of the good frames are received, in order, and then every
    [recv] blocks: no sentinel is ever put. *)
Theorem recvs_after_broken_stream vs frames tail e c n :
  Forall2 (fun v frame =>
             v <> PyNone /\
             exists prefix data,
               unpack_Q prefix = Ok (len data) /\ loads data = Ok v /\
               frame = prefix ++ data) vs frames ->
  fst (_recv_packet tail) = Raise e -> e <> EOFError ->
  r c = concat frames ++ tail -> reader_queue c = [] ->
  reader_thread c = Running ->
  recvs (length vs + n) c = map Returns vs ++ repeat Blocks n.
Proof.
  intros Hfr Htail He Hr Hq Ht.
  rewrite (recvs_frames _ _ _ _ _ Hfr Hr Hq Ht). f_equal.
  destruct n as [|n]; [done|].
  assert (read_loop_turn (mkActive tail (w c) [] Running)
          = mkActive (snd (_recv_packet tail)) (w c) [] (Died e)) as Hturn.
  { unfold read_loop_turn. cbn [r w reader_queue].
    destruct (_recv_packet tail) as [res tail']. simpl in Htail. subst res.
    by destruct e. }
  cbn [recvs repeat]. unfold recv. cbn [reader_queue reader_thread].
  rewrite Hturn. cbn [reader_queue]. f_equal.
  by apply recvs_blocked.
Qed.

(** What [sends] puts on the stream. *)
Lemma sends_frames vs frames c :
  Forall2 (fun v frame =>
             exists prefix data,
               dumps v = Ok data /\ pack_Q (len data) = Ok prefix /\
               frame = prefix ++ data) vs frames ->
  sends vs c =
    (Ok (map len frames),
     mkActive (r c)
       (mkWriter (match vs with [] => pending (w c) | _ => [] end)
          (match vs with
           | [] => flushed (w c)
           | _ => flushed (w c) ++ pending (w c) ++ concat frames
           end))
       (reader_queue c) (reader_thread c)).
Proof.
  intros Hfr. revert c.
  induction Hfr as [|v frame vs frames (prefix & data & Hd & Hp & ->) Hrest IH];
    intros c.
  - by destruct c as [? []].
  - cbn [sends]. unfold bind at 1. rewrite (send_frame _ _ _ _ Hd Hp).
    unfold bind at 1. rewrite IH. unfold ret.
    cbn [r w reader_queue reader_thread pending flushed map concat].
    destruct (pack_Q_Ok _ _ Hp) as [_ Hlen].
    assert (len (prefix ++ data) = len data + 8) as ->.
    { unfold len. rewrite length_app. lia. }
    destruct Hrest; cbn [concat app]; by rewrite ?app_nil_r, <- ?app_assoc.
Qed.

(** X5.  Values sent one after the other and then a clean close: each
    [send] returns the length of its frame, the stream carries the frames
    in the order of the calls, and the other side receives the values in
    that order, then the sentinel once, then blocks. *)
Theorem sends_then_recvs vs sender receiver n :
  Forall (fun v => v <> PyNone /\
                   exists data, dumps v = Ok data /\ loads data = Ok v /\
                                len data < 2 ^ 64) vs ->
  exists lengths stream sender',
    sends vs sender = (Ok lengths, sender') /\
    flushed (w sender') ++ pending (w sender')
      = flushed (w sender) ++ pending (w sender) ++ stream /\
    len stream = foldr Z.add 0 lengths /\
    (r receiver = stream -> reader_queue receiver = [] ->
     reader_thread receiver = Running ->
     recvs (length vs + S n) receiver
       = map Returns vs ++ Returns PyNone :: repeat Blocks n).
Proof.
  intros Hvs.
  assert (exists frames,
            Forall2 (fun v frame =>
                       exists prefix data,
                         dumps v = Ok data /\ pack_Q (len data) = Ok prefix /\
                         frame = prefix ++ data) vs frames /\
            Forall2 (fun v frame =>
                       v <> PyNone /\
                       exists prefix data,
                         unpack_Q prefix = Ok (len data) /\ loads data = Ok v /\
                         frame = prefix ++ data) vs frames)
    as (frames & Hsend & Hrecv).
  { induction Hvs as [|v vs (Hv & data & Hd & Hl & Hlen) _ (frames & Hs & Hr)].
    - exists []. split; constructor.
    - destruct (pack_Q_fits (len data)) as [prefix Hp]; [unfold len in *; lia|].
      exists ((prefix ++ data) :: frames). split; constructor; eauto 10.
      split; [done|]. exists prefix, data. eauto using unpack_pack. }
  exists (map len frames), (concat frames). eexists.
  split; [by apply sends_frames|]. split; [|split].
  - cbn [w pending flushed]. destruct vs.
    + inversion Hsend. simpl. by rewrite app_nil_r.
    + by rewrite app_nil_r.
  - clear. induction frames as [|f frames IH]; [done|].
    cbn [concat map foldr]. rewrite <- IH. unfold len. rewrite length_app. lia.
  - intros Hr Hq Ht.
    rewrite (recvs_frames vs frames [] receiver (S n) Hrecv);
      [|by rewrite app_nil_r|done|done].
    f_equal. by apply recvs_hung_up.
Qed.

(** X6.  [send] pickles the value and packs the prefix before it writes
    anything: when [pickle.dumps] raises, and when the pickle is too long
    for the prefix, [send] raises that error, [struct.error] for the
    prefix, and the connection is as it was, with nothing written and
    nothing left to flush. *)
Theorem send_raises_before_writing v c :
  (forall e, dumps v = Raise e -> send v c = (Raise e, c)) /\
  (forall data,
     dumps v = Ok data -> 2 ^ 64 <= len data ->
     send v c = (Raise struct_error, c)).
Proof.
  unfold send, bind, lift. split.
  - by intros e ->.
  - intros data -> Hlen. unfold pack_Q.
    destruct (Z.ltb_spec (len data) (2 ^ 64)); [lia|].
    by rewrite andb_false_r.
Qed.
End Channel.

(** * More of the descriptors *)

(** X7.  What [snapshot_termios] saves, [restore_termios] brings back:
    whatever has been done to the terminal in between, afterwards its
    attributes are the saved ones and its queues are empty.  A state that
    was saved from something that is not a terminal never changes
    anything, even on a terminal. *)
Theorem termios_snapshot_restore fd k :
  exists state,
    Posix.snapshot_termios fd k = (Ok state, k) /\
    match tty_of k fd with
    | Some (_, t) =>
        forall k' dev' t',
          tty_of k' fd = Some (dev', t') ->
          Posix.restore_termios fd state k'
            = (Ok tt, set_ttys <[dev' := mkTty (attr t) [] []]> k')
    | None => forall k', Posix.restore_termios fd state k' = (Ok tt, k')
    end.
Proof.
  unfold Posix.snapshot_termios, Posix.restore_termios, bind, os_isatty,
    tcgetattr.
  destruct (tty_of k fd) as [[dev t]|] eqn:Htty.
  - exists (Some (attr t)). rewrite bool_decide_eq_true_2 by eauto.
    split; [by rewrite Htty|]. intros k' dev' t' Htty'.
    rewrite bool_decide_eq_true_2 by eauto.
    unfold tcflush, tcsetattr. rewrite Htty'.
    assert (tty_of (set_ttys <[dev' := mkTty (attr t') [] []]> k') fd
            = Some (dev', mkTty (attr t') [] [])) as ->.
    { unfold tty_of in *. simpl.
      destruct (fdtab k' !! fd) as [[[] ?]|]; try done.
      destruct (ttys k' !! dev0) eqn:Hd; [|done].
      injection Htty' as <- <-. by rewrite lookup_insert_eq. }
    unfold set_ttys. simpl. by rewrite insert_insert_eq.
  - exists None. rewrite bool_decide_eq_false_2 by (by intros [? ?]).
    split; [done|]. intros k'. by destruct (bool_decide _).
Qed.

(** Closing without [raises]. *)
Lemma close_fd_false fd k :
  exists k', close_fd (Some fd) false k = (Ok tt, k') /\
    fdtab k' = delete fd (fdtab k) /\
    ttys k' = ttys k /\ pipes k' = pipes k /\ nofile k' = nofile k.
Proof.
  unfold close_fd, try_except, os_close.
  destruct (fdtab k !! fd) eqn:Hfd; eexists; (split; [reflexivity|]); simpl.
  - done.
  - by rewrite delete_id.
Qed.

(** X8.  [close_fd(fd, raises=False)] never raises, and afterwards [fd] is
    closed and nothing else has changed, whether [fd] was open or not.
    With [raises=True] a descriptor that is not open gives an [OSError].
    [close_fd(None)] does nothing. *)
Theorem close_fd_quiet fd k :
  (exists k', close_fd (Some fd) false k = (Ok tt, k') /\
     fdtab k' = delete fd (fdtab k) /\
     ttys k' = ttys k /\ pipes k' = pipes k /\ nofile k' = nofile k) /\
  (fdtab k !! fd = None -> close_fd (Some fd) true k = (Raise EBADF, k)) /\
  (forall raises, close_fd None raises k = (Ok tt, k)).
Proof.
  split; [apply close_fd_false|]. unfold close_fd, try_except, os_close.
  split; [|done]. by intros ->.
Qed.

Lemma activate_kernel self inbound k :
  let m := delete (remote_w_fd self) (delete (remote_r_fd self) (fdtab k)) in
  let opened (fd : nat) (then_ : result Active) : result Active :=
    match m !! fd with
    | Some (mkDesc Directory _) => Raise EISDIR
    | Some _ => then_
    | None => Raise EBADF
    end in
  activate self inbound k =
    (opened (r_fd self)
       (opened (w_fd self) (Ok (mkActive inbound (mkWriter [] []) [] Running))),
     mkKernel m (ttys k) (pipes k) (nofile k)).
Proof.
  intros m opened. unfold activate, bind.
  destruct (close_fd_false (remote_r_fd self) k)
    as (k1 & -> & Hf1 & Ht1 & Hp1 & Hn1).
  destruct (close_fd_false (remote_w_fd self) k1)
    as (k2 & -> & Hf2 & Ht2 & Hp2 & Hn2).
  assert (k2 = mkKernel m (ttys k) (pipes k) (nofile k)) as ->.
  { destruct k2. simpl in *. subst m. congruence. }
  unfold os_fdopen, ret, opened. cbn [fdtab].
  destruct (m !! r_fd self) as [[[] ?]|]; try done;
    cbn [fdtab]; by destruct (m !! w_fd self) as [[[] ?]|].
Qed.

(** X9.  [activate] closes the two remote descriptors, whether they were
    open or not, and nothing else.  It succeeds exactly when after that
    the two local descriptors are open and neither is a directory.
    Otherwise it raises the [OSError] of the first [os.fdopen] that fails,
    the one for reading coming first: a bad file descriptor, or a
    directory.  The remote descriptors are closed all the same. *)
Theorem activate_descriptors self inbound k :
  let m := delete (remote_w_fd self) (delete (remote_r_fd self) (fdtab k)) in
  let usable fd :=
    exists f inh, m !! fd = Some (mkDesc f inh) /\ f <> Directory in
  let directory fd := exists inh, m !! fd = Some (mkDesc Directory inh) in
  snd (activate self inbound k) = mkKernel m (ttys k) (pipes k) (nofile k) /\
  ((exists a, fst (activate self inbound k) = Ok a) <->
   usable (r_fd self) /\ usable (w_fd self)) /\
  (fst (activate self inbound k) = Raise EBADF <->
   m !! r_fd self = None \/ (usable (r_fd self) /\ m !! w_fd self = None)) /\
  (fst (activate self inbound k) = Raise EISDIR <->
   directory (r_fd self) \/ (usable (r_fd self) /\ directory (w_fd self))).
Proof.
  intros m usable directory. rewrite activate_kernel. fold m.
  cbn [fst snd]. split; [done|]. subst usable directory. cbv beta.
  destruct (m !! r_fd self) as [[[] ir]|]; cbv beta iota;
    try (destruct (m !! w_fd self) as [[[] iw]|]; cbv beta iota);
    (split; [|split]); split;
    try done; try (by intros [? ?]);
    try (intros; by eauto 12);
    try (by intros [(? & ? & ? & ?) (? & ? & ? & ?)]);
    try (by intros [?|[(? & ? & ? & ?) ?]]);
    try (by intros [[? ?]|[(? & ? & ? & ?) [? ?]]]).
  all: try (by intros [(? & ? & [= <- <-] & ?) _]).
  all: try (by intros [_ (? & ? & [= <- <-] & ?)]).
  all: try (by intros [?|[(? & ? & [= <- <-] & ?) _]]).
  all: try (by intros [[? ?]|[(? & ? & [= <- <-] & ?) _]]).
Qed.

Lemma os_pipe_Raise k e k' :
  os_pipe k = (Raise e, k') -> e = EMFILE /\ k' = k.
Proof.
  unfold os_pipe, bind, get, try_except, alloc_fd.
  destruct (lowest_free k) as [rfd|] eqn:Hr; [|by intros [= <- <-]].
  apply lowest_free_Some in Hr as [Hr _].
  destruct (lowest_free _) as [wfd|]; [done|].
  unfold os_close. cbn [fdtab set_fdtab]. rewrite lookup_insert_eq.
  unfold raise. intros [= <- <-]. split; [done|].
  destruct k. unfold set_fdtab. simpl in *. by rewrite delete_insert_id.
Qed.

(** X10.  When [Pipe()] fails, it is for want of descriptors, and either
    nothing has been opened or the first of its two pipes is left open:
    [Pipe()] does not close it. *)
Theorem Pipe_failure k e k' :
  Pipe k = (Raise e, k') ->
  e = EMFILE /\
  (k' = k \/
   exists rfd wfd,
     os_pipe k = (Ok (rfd, wfd), k') /\
     fdtab k !! rfd = None /\ fdtab k !! wfd = None /\
     is_Some (fdtab k' !! rfd) /\ is_Some (fdtab k' !! wfd)).
Proof.
  unfold Pipe, bind.
  destruct (os_pipe k) as [[[rfd wfd]|e1] k1] eqn:H1.
  - destruct (os_pipe k1) as [[[rfd2 wfd2]|e2] k2] eqn:H2; [done|].
    intros [= <- <-]. apply os_pipe_Raise in H2 as [-> ->].
    split; [done|]. right. exists rfd, wfd. split; [done|].
    apply os_pipe_Ok in H1 as (Hr & Hw & Hne & _ & ->). cbn [fdtab].
    repeat split; try done.
    + rewrite lookup_insert_ne, lookup_insert_eq by done. eauto.
    + rewrite lookup_insert_eq. eauto.
  - intros [= <- <-]. apply os_pipe_Raise in H1 as [-> ->]. eauto.
Qed.

(** X11.  The two ends of a [Pipe()] cannot both be activated in the
    process that made them: activating the first closes the descriptors
    of the second, whose [activate] then closes those of the first and
    raises an [OSError].  The four descriptors are closed in the end. *)
Theorem activate_both_ends k c1 c2 k1 in1 in2 :
  Pipe k = (Ok (c1, c2), k1) ->
  exists a1 k2 k3,
    activate c1 in1 k1 = (Ok a1, k2) /\
    activate c2 in2 k2 = (Raise EBADF, k3) /\
    fdtab k3 = fdtab k.
Proof.
  unfold Pipe, bind. intros HP.
  destruct (os_pipe k) as [[[c2pr c2pw]|e] k0] eqn:H1; [|done].
  destruct (os_pipe k0) as [[[p2cr p2cw]|e] k0'] eqn:H2; [|done].
  unfold ret in HP. injection HP as <- <- <-.
  apply os_pipe_Ok in H1 as (Hr1 & Hw1 & Hne1 & Hp1 & ->).
  apply os_pipe_Ok in H2 as (Hr2 & Hw2 & Hne2 & Hp2 & ->). simpl in *.
  assert (p2cr <> c2pw) by (intros ->; by rewrite lookup_insert_eq in Hr2).
  assert (p2cw <> c2pw) by (intros ->; by rewrite lookup_insert_eq in Hw2).
  rewrite lookup_insert_ne in Hr2, Hw2 by done.
  assert (p2cr <> c2pr) by (intros ->; by rewrite lookup_insert_eq in Hr2).
  assert (p2cw <> c2pr) by (intros ->; by rewrite lookup_insert_eq in Hw2).
  rewrite lookup_insert_ne in Hr2, Hw2 by done.
  set (T := <[p2cw := _]> (<[p2cr := _]> (<[c2pw := _]> (<[c2pr := _]> (fdtab k))))).
  set (P := <[_ := []]> (<[_ := []]> (pipes k))).
  exists (mkActive in1 (mkWriter [] []) [] Running),
    (mkKernel (delete c2pw (delete p2cr T)) (ttys k) P (nofile k)),
    (mkKernel (delete p2cw (delete c2pr (delete c2pw (delete p2cr T))))
       (ttys k) P (nofile k)).
  split; [|split].
  - rewrite activate_kernel.
    cbn [r_fd w_fd remote_r_fd remote_w_fd fdtab ttys pipes nofile].
    subst T. rewrite !lookup_delete, !lookup_insert.
    repeat case_decide; subst; congruence.
  - rewrite activate_kernel.
    cbn [r_fd w_fd remote_r_fd remote_w_fd fdtab ttys pipes nofile].
    rewrite !lookup_delete. repeat case_decide; subst; congruence.
  - cbn [fdtab]. subst T. apply map_eq. intros fd.
    rewrite !lookup_delete, !lookup_insert.
    repeat case_decide; subst; congruence.
Qed.

(** [set_inheritable] on an open descriptor. *)
Lemma set_inheritable_open fd k f inh :
  fdtab k !! fd = Some (mkDesc f inh) ->
  exists k',
    set_inheritable fd k = (Ok tt, k') /\
    fdtab k' = <[fd := mkDesc f true]> (fdtab k) /\
    ttys k' = ttys k /\ pipes k' = pipes k /\ nofile k' = nofile k /\
    set_inheritable fd k' = (Ok tt, k').
Proof.
  unfold set_inheritable, bind, os_get_inheritable, os_set_inheritable.
  intros Hfd. rewrite Hfd. cbn [inheritable file_of]. destruct inh.
  - exists k. rewrite Hfd. cbn [inheritable]. repeat split; try done.
    by rewrite insert_id.
  - rewrite Hfd. eexists. split; [reflexivity|]. cbn.
    rewrite lookup_insert_eq. by cbn.
Qed.

(** X12.  [set_inheritable(fd)] raises an [OSError] and changes nothing
    when [fd] is not open.  Otherwise it makes [fd] inheritable, keeps
    its file and leaves every other descriptor as it was; calling it
    again changes nothing more. *)
Theorem set_inheritable_effect fd k :
  (fdtab k !! fd = None -> set_inheritable fd k = (Raise EBADF, k)) /\
  (forall f inh,
     fdtab k !! fd = Some (mkDesc f inh) ->
     exists k',
       set_inheritable fd k = (Ok tt, k') /\
       fdtab k' = <[fd := mkDesc f true]> (fdtab k) /\
       ttys k' = ttys k /\ pipes k' = pipes k /\ nofile k' = nofile k /\
       set_inheritable fd k' = (Ok tt, k')).
Proof.
  split; [|intros f inh; apply set_inheritable_open].
  unfold set_inheritable, bind, os_get_inheritable, os_set_inheritable.
  by intros ->.
Qed.

(** * More of the spawner *)

(** X13.  The preparation data of one interpreter, replayed in another,
    give the second the [sys.argv] of the first and change nothing else
    in it. *)
Theorem prepare_replays_argv s1 s2 :
  exists data,
    get_preparation_data s1 = (Ok data, s1) /\
    prepare data s2 = (Ok tt, set_argv (argv s1) s2) /\
    executable (set_argv (argv s1) s2) = executable s2 /\
    flags (set_argv (argv s1) s2) = flags s2 /\
    warnoptions (set_argv (argv s1) s2) = warnoptions s2.
Proof.
  eexists. split; [reflexivity|]. split; [|done].
  unfold prepare, bind, lift. cbn [py_contains py_getitem dict_get].
  rewrite String.eqb_refl. by rewrite bool_decide_eq_true_2 by eauto.
Qed.

(** X14.  [prepare] changes the interpreter only when its argument is a
    dictionary with the key ['sys.argv'], and then only [sys.argv]: a
    dictionary without the key is accepted and ignored, and anything that
    is not a dictionary leaves the interpreter as it was. *)
Theorem prepare_only_argv data s :
  (forall d,
     data = PyDict d ->
     prepare data s =
       (Ok tt, match dict_get "sys.argv" d with
               | Some v => set_argv v s
               | None => s
               end)) /\
  ((forall d, data <> PyDict d) -> snd (prepare data s) = s) /\
  (data = PyNone \/ (exists b, data = PyBool b) \/ (exists z, data = PyInt z) ->
   prepare data s = (Raise TypeError, s)).
Proof.
  unfold prepare, bind, lift. split; [|split].
  - intros d ->. cbn [py_contains py_getitem].
    destruct (dict_get "sys.argv" d) as [v|].
    + by rewrite bool_decide_eq_true_2 by eauto.
    + by rewrite bool_decide_eq_false_2 by (by intros [? ?]).
  - intros Hd. destruct data as [| | |str|l|d]; cbn [py_contains py_getitem];
      try done.
    + by destruct (is_substring _ _).
    + by destruct (existsb _ _).
    + by destruct (Hd d).
  - intros [->|[[b ->]|[z ->]]]; done.
Qed.

Lemma rsplit_dot_Some s a b :
  rsplit_dot s = Some (a, b) ->
  s = String.append a (String "." b) /\
  ~ In "."%char (String.list_ascii_of_string b).
Proof.
  revert a. induction s as [|c s IH]; intros a; simpl; [done|].
  destruct (rsplit_dot s) as [[a' b']|] eqn:Hs.
  - intros [= <- <-]. destruct (IH a' eq_refl) as [-> Hb]. done.
  - destruct (Ascii.eqb_spec c "."%char) as [->|]; [|done].
    intros [= <- <-]. split; [done|].
    clear IH. induction s as [|c s IH]; simpl in *; [tauto|].
    destruct (rsplit_dot s) as [[? ?]|]; [done|].
    destruct (Ascii.eqb_spec c "."%char); [done|].
    intros [?|?]; [congruence | by apply IH].
Qed.

Section Resolve.
Context `{Importlib}.

(** X15.  [resolve_spec] cuts the reference at its last dot: it imports
    the module named by what is before the dot and returns its attribute
    named by what is after it, or raises [AttributeError] when the module
    has no such attribute.  A reference without a dot raises [ValueError]
    and nothing is imported; every string is of one kind or the other. *)
Theorem resolve_spec_cases ps :
  (forall s,
     ~ In "."%char (String.list_ascii_of_string s) ->
     resolve_spec (PyStr s) ps = (Raise ValueError, ps)) /\
  (forall modname funcname,
     ~ In "."%char (String.list_ascii_of_string funcname) ->
     resolve_spec (PyStr (String.append modname (String "." funcname))) ps =
       match import_module modname ps with
       | (Ok module, ps1) =>
           (match module !! funcname with
            | Some func => Ok func
            | None => Raise AttributeError
            end, ps1)
       | (Raise e, ps1) => (Raise e, ps1)
       end) /\
  (forall s,
     ~ In "."%char (String.list_ascii_of_string s) \/
     exists modname funcname,
       s = String.append modname (String "." funcname) /\
       ~ In "."%char (String.list_ascii_of_string funcname)).
Proof.
  split; [|split].
  - intros s Hs. unfold resolve_spec, rsplit1, bind, lift.
    by rewrite (rsplit_dot_no_dot s Hs).
  - intros modname funcname Hf. unfold resolve_spec, rsplit1, bind, lift.
    rewrite (rsplit_dot_append _ _ Hf). cbn [unpack2].
    destruct (import_module modname ps) as [[module|e] ps1]; [|done].
    unfold getattr. by destruct (module !! funcname).
  - intros s. destruct (rsplit_dot s) as [[a b]|] eqn:Hs.
    + right. exists a, b. by apply rsplit_dot_Some.
    + left. clear -Hs. induction s as [|c s IH]; simpl in *; [tauto|].
      destruct (rsplit_dot s) as [[? ?]|]; [done|].
      destruct (Ascii.eqb_spec c "."%char); [done|].
      intros [?|?]; [congruence | by apply IH].
Qed.
End Resolve.

Lemma for_each_set_inheritable_open l k :
  Forall (fun fd => is_Some (fdtab k !! fd)) l ->
  exists k', for_each set_inheritable l k = (Ok tt, k').
Proof.
  revert k. induction l as [|fd l IH]; intros k Hl; [by eexists|].
  apply Forall_cons in Hl as [[[f inh] Hfd] Hl].
  destruct (set_inheritable_open fd k f inh Hfd)
    as (k1 & H1 & Hf1 & _).
  destruct (IH k1) as [k' Hk'].
  { eapply Forall_impl; [exact Hl|]. intros fd' [d Hd]. rewrite Hf1.
    destruct (decide (fd = fd')) as [->|].
    - rewrite lookup_insert_eq. eauto.
    - rewrite lookup_insert_ne by done. eauto. }
  exists k'. simpl. unfold bind. by rewrite H1.
Qed.

Section Spawn.
Context `{Pickle} {Popen_t : Type} `{Subprocess Popen_t}.

(** [spawn] once the pipe is there and the descriptors are inheritable. *)
Lemma spawn_after_pipe spec kwargs pass_fds ps r0 w0 k1 k2 :
  os_pipe (os ps) = (Ok (r0, w0), k1) ->
  for_each set_inheritable ([r0] ++ pass_fds) k1 = (Ok tt, k2) ->
  spawn spec kwargs pass_fds ps =
    match Popen (get_command_line [("pipe_handle"%string, r0)] (interp ps)) false with
    | Raise e => (Raise e, mkProcess k2 (interp ps))
    | Ok proc =>
        match dumps (PyList [PyDict [("sys.argv"%string, argv (interp ps))];
                             spec; kwargs]) with
        | Raise e => (Raise e, mkProcess k2 (interp ps))
        | Ok data =>
            (Ok proc,
             mkProcess
               (set_fdtab (delete w0)
                  (set_pipes <[fresh (dom (pipes (os ps))) := data]> k2))
               (interp ps))
        end
    end.
Proof.
  destruct ps as [k s]. cbn [os interp]. intros Hpipe Hinh.
  unfold spawn, on_os, on_sys, get_preparation_data.
  unfold bind, get, ret, lift. cbn [os interp]. rewrite Hpipe.
  cbn [os interp]. rewrite Hinh. cbn [os interp]. unfold Posix.get_handle.
  destruct (Popen _ false) as [proc|e]; [|done].
  apply os_pipe_Ok in Hpipe as (Hr & Hw & Hne & Hp & ->).
  apply for_each_set_inheritable in Hinh as (_ & Hp2 & Hf2 & _ & _).
  cbn [fdtab pipes] in *.
  unfold os_fdopen, file_write, os_close. cbn [os interp].
  pose proof (Hf2 w0) as Hwfd. rewrite lookup_insert_eq in Hwfd.
  destruct (fdtab k2 !! w0) as [[f inh]|] eqn:Hk2w; [|done].
  injection Hwfd as ->.
  destruct (dumps _) as [data|e]; [|done].
  cbn [os interp fdtab set_pipes]. rewrite Hk2w.
  cbn [os interp fdtab set_pipes]. rewrite Hk2w.
  by rewrite Hp2, lookup_insert_eq.
Qed.

(** X16.  After a [spawn] that returns, the process has one descriptor
    more than before, the reading end of the new pipe: the writing end is
    closed again, every other descriptor is the file that it was, and the
    descriptors of [pass_fds] that were open before the call are
    inheritable.  The command line that was launched names that reading
    end, and [sys] is untouched. *)
Theorem spawn_descriptors spec kwargs pass_fds ps proc ps' :
  spawn spec kwargs pass_fds ps = (Ok proc, ps') ->
  exists r0,
    fdtab (os ps) !! r0 = None /\
    Popen (get_command_line [("pipe_handle"%string, r0)] (interp ps)) false
      = Ok proc /\
    interp ps' = interp ps /\
    ttys (os ps') = ttys (os ps) /\
    file_of <$> fdtab (os ps') !! r0
      = Some (PipeReader (fresh (dom (pipes (os ps))))) /\
    (forall fd, fd <> r0 ->
       file_of <$> fdtab (os ps') !! fd = file_of <$> fdtab (os ps) !! fd) /\
    (forall fd, fd ∈ pass_fds -> is_Some (fdtab (os ps) !! fd) ->
       inheritable <$> fdtab (os ps') !! fd = Some true).
Proof.
  intros Hspawn.
  destruct (os_pipe (os ps)) as [[[r0 w0]|e] k1] eqn:Hpipe; cycle 1.
  { revert Hspawn. unfold spawn, on_os, bind. by rewrite Hpipe. }
  destruct (for_each set_inheritable ([r0] ++ pass_fds) k1)
    as [[[]|e] k2] eqn:Hinh; cycle 1.
  { revert Hspawn. unfold spawn, on_os, bind. rewrite Hpipe.
    cbn [os interp]. by rewrite Hinh. }
  rewrite (spawn_after_pipe _ _ _ _ _ _ _ _ Hpipe Hinh) in Hspawn.
  destruct (Popen _ false) as [proc'|e] eqn:HP; [|done].
  destruct (dumps _) as [data|e]; [|done].
  injection Hspawn as <- <-.
  apply os_pipe_Ok in Hpipe as (Hr & Hw & Hne & Hp & ->).
  apply for_each_set_inheritable in Hinh as (Ht2 & Hp2 & Hf2 & Hi2 & _).
  cbn [fdtab pipes ttys os interp set_fdtab set_pipes] in *.
  exists r0. repeat split; try done.
  - rewrite lookup_delete_ne, Hf2 by done.
    by rewrite lookup_insert_ne, lookup_insert_eq.
  - intros fd Hfd. destruct (decide (fd = w0)) as [->|].
    + by rewrite lookup_delete_eq, Hw.
    + rewrite lookup_delete_ne, Hf2 by done.
      by rewrite !lookup_insert_ne.
  - intros fd Hfd [d Hd]. destruct (decide (fd = w0)) as [->|].
    + by rewrite Hw in Hd.
    + rewrite lookup_delete_ne by done. apply Hi2. set_solver.
Qed.
End Spawn.

Section SpawnFailures.
Context `{Pickle} {Popen_t : Type} `{Subprocess Popen_t}.

(** With a pipe to be had and [pass_fds] open, [spawn] gets as far as the
    launch. *)
Lemma spawn_reaches_launch pass_fds ps r0 w0 k1 :
  os_pipe (os ps) = (Ok (r0, w0), k1) ->
  Forall (fun fd => is_Some (fdtab (os ps) !! fd)) pass_fds ->
  exists k2,
    for_each set_inheritable ([r0] ++ pass_fds) k1 = (Ok tt, k2) /\
    pipes k2 !! fresh (dom (pipes (os ps))) = Some [] /\
    file_of <$> fdtab k2 !! r0
      = Some (PipeReader (fresh (dom (pipes (os ps))))) /\
    file_of <$> fdtab k2 !! w0
      = Some (PipeWriter (fresh (dom (pipes (os ps))))).
Proof.
  intros Hpipe Hfds.
  apply os_pipe_Ok in Hpipe as (Hr & Hw & Hne & Hp & ->).
  destruct (for_each_set_inheritable_open ([r0] ++ pass_fds)
              (mkKernel
                 (<[w0 := mkDesc (PipeWriter (fresh (dom (pipes (os ps))))) false]>
                    (<[r0 := mkDesc (PipeReader (fresh (dom (pipes (os ps))))) false]>
                       (fdtab (os ps))))
                 (ttys (os ps)) (<[fresh (dom (pipes (os ps))) := []]> (pipes (os ps)))
                 (nofile (os ps)))) as [k2 Hk2].
  { cbn [fdtab]. apply Forall_app. split.
    - repeat constructor.
      rewrite lookup_insert_ne, lookup_insert_eq by done. eauto.
    - eapply Forall_impl; [exact Hfds|]. intros fd [d Hd].
      rewrite !lookup_insert_ne by congruence. eauto. }
  exists k2. split; [done|].
  apply for_each_set_inheritable in Hk2 as (_ & Hp2 & Hf2 & _ & _).
  cbn [fdtab pipes] in *. rewrite Hp2, !Hf2, lookup_insert_eq.
  repeat split; try done.
  - by rewrite lookup_insert_ne, lookup_insert_eq.
  - by rewrite lookup_insert_eq.
Qed.

(** X17.  When the launch fails, [spawn] raises what [Popen] raised, and
    both ends of the pipe that it has made stay open: it does not close
    them. *)
Theorem spawn_launch_failure spec kwargs pass_fds ps r0 w0 k1 e :
  os_pipe (os ps) = (Ok (r0, w0), k1) ->
  Forall (fun fd => is_Some (fdtab (os ps) !! fd)) pass_fds ->
  Popen (get_command_line [("pipe_handle"%string, r0)] (interp ps)) false
    = Raise e ->
  exists ps',
    spawn spec kwargs pass_fds ps = (Raise e, ps') /\
    fdtab (os ps) !! r0 = None /\ fdtab (os ps) !! w0 = None /\
    file_of <$> fdtab (os ps') !! r0
      = Some (PipeReader (fresh (dom (pipes (os ps))))) /\
    file_of <$> fdtab (os ps') !! w0
      = Some (PipeWriter (fresh (dom (pipes (os ps))))).
Proof.
  intros Hpipe Hfds HP.
  destruct (spawn_reaches_launch _ _ _ _ _ Hpipe Hfds)
    as (k2 & Hinh & _ & Hr2 & Hw2).
  rewrite (spawn_after_pipe _ _ _ _ _ _ _ _ Hpipe Hinh), HP.
  apply os_pipe_Ok in Hpipe as (Hr & Hw & _). eauto 10.
Qed.

End SpawnFailures.

Section SpawnMain.
Context `{Pickle} `{Importlib}.

(** X19.  With a whole packet read, [spawn_main] fails in the way of its
    first step that fails: a target without a dot gives [ValueError], a
    target that is not a string [AttributeError], an import that fails
    its own exception, a missing attribute [AttributeError], an attribute
    that is not a function [TypeError], and a function that raises, its
    exception.  In every one of these cases the pipe has been closed and
    [sys.argv] replaced before. *)
Theorem spawn_main_failures ps fd p inh content prep spec kwargs rest :
  fdtab (os ps) !! fd = Some (mkDesc (PipeReader p) inh) ->
  pipes (os ps) !! p = Some content ->
  load content = (Ok (PyList [PyDict prep; spec; kwargs]), rest) ->
  let ps0 :=
    mkProcess (set_fdtab (delete fd) (set_pipes <[p := rest]> (os ps)))
      (match dict_get "sys.argv" prep with
       | Some v => set_argv v (interp ps)
       | None => interp ps
       end) in
  (forall s, spec = PyStr s ->
     ~ In "."%char (String.list_ascii_of_string s) ->
     spawn_main fd ps = (Raise ValueError, ps0)) /\
  ((forall s, spec <> PyStr s) ->
     spawn_main fd ps = (Raise AttributeError, ps0)) /\
  (forall modname funcname,
     spec = PyStr (String.append modname (String "." funcname)) ->
     ~ In "."%char (String.list_ascii_of_string funcname) ->
     (forall e ps1,
        import_module modname ps0 = (Raise e, ps1) ->
        spawn_main fd ps = (Raise e, ps1)) /\
     (forall module ps1,
        import_module modname ps0 = (Ok module, ps1) ->
        (module !! funcname = None ->
         spawn_main fd ps = (Raise AttributeError, ps1)) /\
        (forall x, module !! funcname = Some (Object x) ->
         spawn_main fd ps = (Raise TypeError, ps1)) /\
        (forall f, module !! funcname = Some (Function f) ->
         (forall d, kwargs <> PyDict d) ->
         spawn_main fd ps = (Raise TypeError, ps1)) /\
        (forall f d e ps2,
           module !! funcname = Some (Function f) -> kwargs = PyDict d ->
           f d ps1 = (Raise e, ps2) ->
           spawn_main fd ps = (Raise e, ps2)))).
Proof.
  intros Hfd Hp Hload ps0.
  rewrite (spawn_main_after_packet _ _ _ _ _ _ _ _ _ Hfd Hp Hload). fold ps0.
  split; [|split].
  - intros s -> Hs. unfold rsplit1, bind, lift.
    by rewrite (rsplit_dot_no_dot s Hs).
  - intros Hs. destruct spec; try done. by destruct (Hs s).
  - intros modname funcname -> Hf. cbv beta iota.
    match goal with
    | |- context [bind (lift (unpack2 ?x)) ?k ps0] =>
        assert (bind (lift (unpack2 x)) k ps0 =
                match import_module modname ps0 with
                | (Ok module, ps1) =>
                    match module !! funcname with
                    | Some (Function f) =>
                        match kwargs with
                        | PyDict d =>
                            match f d ps1 with
                            | (Ok _, ps2) => (Raise (SystemExit 0), ps2)
                            | (Raise e, ps2) => (Raise e, ps2)
                            end
                        | _ => (Raise TypeError, ps1)
                        end
                    | Some (Object _) => (Raise TypeError, ps1)
                    | None => (Raise AttributeError, ps1)
                    end
                | (Raise e, ps1) => (Raise e, ps1)
                end) as ->
    end.
    { unfold rsplit1, bind, lift. rewrite (rsplit_dot_append _ _ Hf).
      cbn [unpack2]. destruct (import_module modname ps0) as [[module|e] ps1];
        [|done].
      unfold getattr. destruct (module !! funcname) as [[f|x]|]; try done.
      unfold call, ret. by destruct kwargs. }
    split.
    + by intros e ps1 ->.
    + intros module ps1 ->. repeat split.
      * by intros ->.
      * by intros x ->.
      * intros f -> Hk. destruct kwargs; try done. by destruct (Hk d).
      * by intros f d e ps2 -> -> ->.
Qed.

(** X20.  [spawn_main] never returns to its caller: a call that ends,
    ends in an exception, [SystemExit] after its last statement or the
    error that stopped it before. *)
Theorem spawn_main_never_returns fd ps x ps' :
  spawn_main fd ps <> (Ok x, ps').
Proof.
  intros Hret.
  assert (exists e, fst (spawn_main fd ps) = Raise e) as [e He];
    [|by rewrite Hret in He].
  clear Hret. unfold spawn_main, Posix.open_handle.
  repeat match goal with
         | |- exists e, fst (bind ?m ?f ?s) = Raise e =>
             unfold bind at 1; destruct (m s) as [[?|?] ?]; [|by eexists]
         | |- exists e, fst ((let '(_, _) := ?x in _) _) = Raise e =>
             destruct x
         | |- exists e, fst (match ?x with PyStr _ => _ | _ => _ end _) = Raise e =>
             destruct x; try (by eexists)
         end.
  by eexists.
Qed.
End SpawnMain.

(** * The rest *)

(** X21.  The options that reproduce the interpreter: every one of them
    begins with a dash; the [-W] options are the last ones, in the order
    of [sys.warnoptions]; a flag that is set [v] times gives its letter
    [v] times after one dash; and flags that are not set give nothing. *)
Theorem interpreter_flags_args s :
  (forall a, In a (args_from_interpreter_flags s) ->
     exists rest, a = String "-" rest) /\
  (exists opts,
     args_from_interpreter_flags s
       = opts ++ map (String.append "-W") (warnoptions s) /\
     (length opts <= 9)%nat) /\
  (forall flag opt v,
     In (flag, opt) flag_opt_map -> flags s !! flag = Some v -> (0 < v)%nat ->
     In (String "-" (str_mul opt v)) (args_from_interpreter_flags s)) /\
  ((forall flag opt, In (flag, opt) flag_opt_map ->
      default O (flags s !! flag) = O) ->
   args_from_interpreter_flags s = map (String.append "-W") (warnoptions s)).
Proof.
  unfold args_from_interpreter_flags.
  set (F := fun fo : string * string =>
              let v := default O (flags s !! fo.1) in
              if bool_decide (0 < v)%nat
              then [String.append "-" (str_mul fo.2 v)] else []).
  split; [|split; [|split]].
  - intros a [Ha|Ha]%in_app_or.
    + apply in_flat_map in Ha as ([flag opt] & _ & Ha). unfold F in Ha.
      cbn [fst snd] in Ha. case_bool_decide; [|done].
      destruct Ha as [<-|[]]. simpl. eauto.
    + apply in_map_iff in Ha as (x & <- & _). simpl. eauto.
  - exists (flat_map F flag_opt_map). split; [done|].
    assert (forall l, (length (flat_map F l) <= length l)%nat) as Hlen.
    { induction l as [|fo l IH]; [done|]. cbn [flat_map].
      rewrite length_app. unfold F at 1. cbv zeta.
      case_bool_decide; simpl; lia. }
    apply (Hlen flag_opt_map).
  - intros flag opt v Hin Hv Hpos. apply in_or_app. left.
    apply in_flat_map. exists (flag, opt). split; [done|].
    unfold F. cbn [fst snd]. rewrite Hv. cbn [default from_option id].
    rewrite bool_decide_eq_true_2 by done. by left.
  - intros Hzero.
    assert (forall l, (forall fo, In fo l -> In fo flag_opt_map) ->
                      flat_map F l = []) as Hnil.
    { induction l as [|[flag opt] l IH]; [done|]. intros Hl.
      cbn [flat_map]. rewrite IH by (intros; apply Hl; by right).
      unfold F. cbn [fst snd]. rewrite (Hzero flag opt) by (apply Hl; by left).
      by rewrite bool_decide_eq_false_2 by lia. }
    by rewrite Hnil.
Qed.

Lemma state_item_Raise key state e :
  state_item key state = Raise e -> e = KeyError.
Proof.
  induction state as [|[k v] state IH]; simpl; [congruence|].
  by destruct (String.eqb k key).
Qed.

(** X22.  A Connection comes back from its state as it was:
    [__setstate__] undoes [__getstate__].  A state that lacks one of the
    four handles gives a [KeyError]. *)
Theorem connection_state_roundtrip :
  (forall self, __setstate__ (__getstate__ self) = Ok self) /\
  (forall state key,
     In key ["r_handle"; "w_handle"; "remote_r_handle"; "remote_w_handle"]%string ->
     state_item key state = Raise KeyError ->
     __setstate__ state = Raise KeyError).
Proof.
  split.
  - by intros [].
  - intros state key Hkey Hmiss. unfold __setstate__, and_then.
    destruct (state_item "r_handle" state) eqn:H1;
      [|by rewrite (state_item_Raise _ _ _ H1)].
    destruct (state_item "w_handle" state) eqn:H2;
      [|by rewrite (state_item_Raise _ _ _ H2)].
    destruct (state_item "remote_r_handle" state) eqn:H3;
      [|by rewrite (state_item_Raise _ _ _ H3)].
    destruct (state_item "remote_w_handle" state) eqn:H4;
      [|by rewrite (state_item_Raise _ _ _ H4)].
    simpl in Hkey. destruct Hkey as [<-|[<-|[<-|[<-|[]]]]]; congruence.
Qed.

(** X23.  When [add_child] raises on Windows, the exception is the one of
    [OpenProcess], whatever it is (an access that is denied there is not
    passed over), or the one of [AssignProcessToJobObject], and then it is
    not an [OSError] with [winerror] 5. *)
Theorem add_child_raises W HANDLE (api : Windows.winapi W HANDLE)
    (self : Windows.ProcessGroup HANDLE) pid s :
  (forall e s', Windows.add_child self pid s = (Raise e, s') ->
     Windows.OpenProcess Windows.PROCESS_ALL_ACCESS false pid s = (Raise e, s') \/
     exists hp s1,
       Windows.OpenProcess Windows.PROCESS_ALL_ACCESS false pid s = (Ok hp, s1) /\
       Windows.AssignProcessToJobObject (Windows.h_job self) hp s1 = (Raise e, s') /\
       forall msg, e <> OSError (Some 5) msg) /\
  (forall e s',
     Windows.OpenProcess Windows.PROCESS_ALL_ACCESS false pid s = (Raise e, s') ->
     Windows.add_child self pid s = (Raise e, s')).
Proof.
  unfold Windows.add_child, bind, try_except. split.
  - intros e s'.
    destruct (Windows.OpenProcess _ _ _ s) as [[hp|e0] s1];
      [|intros Hres; left; congruence].
    destruct (Windows.AssignProcessToJobObject _ hp s1) as [[x|e1] s2] eqn:Ha;
      [done|].
    intros Hres. right. exists hp, s1. split; [done|].
    destruct e1 as [|winerror msg| | | | | | | | | | |];
      try (injection Hres as <- <-; by split).
    destruct (decide (winerror = Some 5)) as [->|Hw]; [done|].
    injection Hres as <- <-. split; [done|]. congruence.
  - by intros e s' ->.
Qed.

(** * More runs on the sample host *)

Section MoreRuns.
Import Sample Pickle2.


Lemma none_closes_channel_witness :
  exists frame c',
    send PyNone hung_up = (Ok 12, c') /\
    flushed (w c') = frame /\
    _read_loop (mkActive (frame ++ [x01]) idle [PyInt 1] Running)
      = mkActive [x01] idle [PyInt 1; PyNone] Finished.
Proof.
  destruct (none_closes_channel [x80; x02; x4e; x2e] hung_up [x01] idle
              [PyInt 1])
    as (frame & c' & Hs & Hf & Hr);
    [reflexivity | reflexivity | vm_compute; reflexivity |].
  exists frame, c'. exact (conj Hs (conj Hf Hr)).
Defined.

(** A payload that is a lone [STOP], and one that ends after the protocol
    header. *)
Lemma unreadable_payload_witness :
  _read_loop (mkActive ([x01; x00; x00; x00; x00; x00; x00; x00]
                          ++ [x2e] ++ [x07]) idle [] Running)
    = mkActive [x07] idle [] (Died PickleError) /\
  _read_loop (mkActive ([x02; x00; x00; x00; x00; x00; x00; x00]
                          ++ [x80; x02] ++ [x07]) idle [] Running)
    = mkActive [x07] idle [PyNone] Finished.
Proof.
  destruct (unreadable_payload [x01; x00; x00; x00; x00; x00; x00; x00]
              [x2e] PickleError [x07] idle [])
    as (_ & _ & Hdied); [vm_compute; reflexivity | reflexivity |].
  destruct (unreadable_payload [x02; x00; x00; x00; x00; x00; x00; x00]
              [x80; x02] EOFError [x07] idle [])
    as (_ & Heof & _); [vm_compute; reflexivity | reflexivity |].
  split; [apply Hdied; discriminate | apply Heof; reflexivity].
Defined.

(** A frame, and then three bytes of a prefix. *)
Lemma recvs_after_broken_stream_witness :
  recvs 3 (mkActive ([x05; x00; x00; x00; x00; x00; x00; x00;
                      x80; x02; x4b; x01; x2e] ++ [x05; x00; x00])
             idle [] Running)
    = [Returns (PyInt 1); Blocks; Blocks].
Proof.
  apply (recvs_after_broken_stream [PyInt 1]
           [[x05; x00; x00; x00; x00; x00; x00; x00;
             x80; x02; x4b; x01; x2e]]
           [x05; x00; x00] struct_error
           (mkActive ([x05; x00; x00; x00; x00; x00; x00; x00;
                       x80; x02; x4b; x01; x2e] ++ [x05; x00; x00])
              idle [] Running) 2).
  - constructor; [|constructor]. split; [discriminate|].
    exists [x05; x00; x00; x00; x00; x00; x00; x00],
      [x80; x02; x4b; x01; x2e].
    split; [vm_compute; reflexivity|]. split; reflexivity.
  - vm_compute. reflexivity.
  - discriminate.
  - reflexivity.
  - reflexivity.
  - reflexivity.
Defined.

Lemma sends_then_recvs_witness :
  exists stream sender',
    sends [PyInt 1; PyStr "go"] hung_up = (Ok [13; 18], sender') /\
    flushed (w sender') = stream /\ len stream = 31 /\
    recvs 4 (mkActive stream idle [] Running)
      = [Returns (PyInt 1); Returns (PyStr "go"); Returns PyNone; Blocks].
Proof.
  destruct (sends_then_recvs [PyInt 1; PyStr "go"] hung_up
              (mkActive (flushed (w (snd (sends [PyInt 1; PyStr "go"] hung_up))))
                 idle [] Running) 1)
    as (lengths & stream & sender' & Hs & Hfl & Hlen & Hrecv).
  { constructor; [|constructor; [|constructor]];
      (split; [discriminate|]); eexists;
      (split; [reflexivity|]); (split; [reflexivity|]);
      vm_compute; reflexivity. }
  vm_compute in Hs. injection Hs as <- <-.
  cbn [w flushed pending hung_up idle app] in Hfl. subst stream.
  eexists. eexists. split; [vm_compute; reflexivity|].
  split; [reflexivity|]. split; [exact Hlen|].
  apply Hrecv; reflexivity.
Defined.

(** The sample serializer has no integers above 255. *)
Lemma send_raises_before_writing_witness :
  send (PyInt 300) hung_up = (Raise PickleError, hung_up).
Proof.
  apply (proj1 (send_raises_before_writing (PyInt 300) hung_up) PickleError).
  reflexivity.
Defined.

(** The console is saved in raw mode, put in cooked mode, and restored. *)
Lemma termios_snapshot_restore_witness :
  exists state,
    Posix.snapshot_termios 1 console = (Ok state, console) /\
    Posix.restore_termios 1 state
      (set_ttys <[0%nat := mkTty cooked [x41] []]> console)
    = (Ok tt, set_ttys <[0%nat := mkTty raw [] []]>
                (set_ttys <[0%nat := mkTty cooked [x41] []]> console)).
Proof.
  destruct (termios_snapshot_restore 1 console) as (state & Hs & Hr).
  change (tty_of console 1) with (Some (0%nat, mkTty raw [x71] [x0a])) in Hr.
  exists state. split; [exact Hs|].
  apply (Hr _ 0%nat (mkTty cooked [x41] [])). reflexivity.
Defined.

Lemma close_fd_quiet_witness :
  (exists k', close_fd (Some 7%nat) false console = (Ok tt, k') /\
     fdtab k' = delete 7%nat (fdtab console) /\
     ttys k' = ttys console /\ pipes k' = pipes console /\
     nofile k' = nofile console) /\
  close_fd (Some 7%nat) true console = (Raise EBADF, console).
Proof.
  destruct (close_fd_quiet 7%nat console) as (Hq & Hr & _).
  split; [exact Hq|]. apply Hr. reflexivity.
Defined.

(** The first end of a [Pipe()]; the same descriptors where no pipe has
    been made; and a directory for the writing side. *)
Lemma activate_descriptors_witness :
  (exists a, fst (activate (mkConnection 3 6 5 4) [] (snd (Pipe console)))
             = Ok a) /\
  fst (activate (mkConnection 3 6 5 4) [] console) = Raise EBADF /\
  fst (activate (mkConnection 0 3 5 4) [] at_home) = Raise EISDIR.
Proof.
  pose proof (activate_descriptors (mkConnection 3 6 5 4) []
                (snd (Pipe console))) as Hpipe.
  pose proof (activate_descriptors (mkConnection 3 6 5 4) [] console) as Hnone.
  pose proof (activate_descriptors (mkConnection 0 3 5 4) [] at_home) as Hdir.
  cbv zeta in Hpipe, Hnone, Hdir.
  destruct Hpipe as (_ & [_ Hok] & _).
  destruct Hnone as (_ & _ & [_ Hbad] & _).
  destruct Hdir as (_ & _ & _ & [_ Hisdir]).
  split; [|split].
  - apply Hok. split; eexists _, _; (split; [vm_compute; reflexivity|]);
      discriminate.
  - apply Hbad. left. vm_compute. reflexivity.
  - apply Hisdir. right. split.
    + eexists _, _. split; [vm_compute; reflexivity | discriminate].
    + eexists. vm_compute. reflexivity.
Defined.

(** Three descriptors are left: the second pipe cannot be made, and the
    first one stays. *)
Lemma Pipe_failure_witness :
  exists k',
    Pipe crowded = (Raise EMFILE, k') /\
    os_pipe crowded = (Ok (3%nat, 4%nat), k') /\
    is_Some (fdtab k' !! 3%nat) /\ is_Some (fdtab k' !! 4%nat).
Proof.
  destruct (Pipe_failure crowded EMFILE (snd (Pipe crowded)))
    as (_ & [Hsame|(rfd & wfd & Hp & _ & _ & Hr & Hw)]);
    [vm_compute; reflexivity | |].
  - apply (f_equal (fun k => fdtab k !! 3%nat)) in Hsame.
    vm_compute in Hsame. discriminate.
  - exists (snd (Pipe crowded)). split; [vm_compute; reflexivity|].
    assert (rfd = 3%nat /\ wfd = 4%nat) as [-> ->].
    { apply (f_equal fst) in Hp. vm_compute in Hp. by injection Hp as <- <-. }
    exact (conj Hp (conj Hr Hw)).
Defined.

Lemma activate_both_ends_witness :
  exists a1 k2 k3,
    activate (mkConnection 3 6 5 4) [] (snd (Pipe console)) = (Ok a1, k2) /\
    activate (mkConnection 5 4 3 6) [] k2 = (Raise EBADF, k3) /\
    fdtab k3 = fdtab console.
Proof.
  apply (activate_both_ends console (mkConnection 3 6 5 4)
           (mkConnection 5 4 3 6) (snd (Pipe console)) [] []).
  vm_compute. reflexivity.
Defined.

(** Descriptor 7 is not open; descriptor 3 is the reading end of a new
    pipe. *)
Lemma set_inheritable_effect_witness :
  set_inheritable 7 console = (Raise EBADF, console) /\
  exists k',
    set_inheritable 3 (snd (os_pipe console)) = (Ok tt, k') /\
    fdtab k' = <[3%nat := mkDesc (PipeReader 0) true]>
                 (fdtab (snd (os_pipe console))) /\
    ttys k' = ttys (snd (os_pipe console)) /\
    pipes k' = pipes (snd (os_pipe console)) /\
    nofile k' = nofile (snd (os_pipe console)) /\
    set_inheritable 3 k' = (Ok tt, k').
Proof.
  split.
  - apply (proj1 (set_inheritable_effect 7 console)). reflexivity.
  - apply (proj2 (set_inheritable_effect 3 (snd (os_pipe console)))
             (PipeReader 0) false).
    vm_compute. reflexivity.
Defined.

Lemma prepare_only_argv_witness :
  prepare (PyDict [("cwd"%string, PyStr "/srv")]) python = (Ok tt, python) /\
  prepare PyNone python = (Raise TypeError, python).
Proof.
  split.
  - apply (proj1 (prepare_only_argv (PyDict [("cwd"%string, PyStr "/srv")])
                    python) [("cwd"%string, PyStr "/srv")]).
    reflexivity.
  - apply (proj2 (proj2 (prepare_only_argv PyNone python))). by left.
Defined.

Lemma resolve_spec_cases_witness :
  resolve_spec (PyStr "main") worker = (Raise ValueError, worker) /\
  resolve_spec (PyStr "pkg.app.version") worker
    = (Ok (Object (PyInt 1)), worker) /\
  resolve_spec (PyStr "pkg.app.run") worker = (Raise AttributeError, worker) /\
  resolve_spec (PyStr "pkg.main") worker = (Raise ImportError, worker).
Proof.
  destruct (resolve_spec_cases worker) as (Hnone & Hdot & _).
  split; [|split; [|split]].
  - apply Hnone. simpl. intuition discriminate.
  - change (PyStr "pkg.app.version") with (PyStr ("pkg.app" +:+ String "." "version")).
    rewrite (Hdot "pkg.app" "version")%string by (simpl; intuition discriminate).
    vm_compute. reflexivity.
  - change (PyStr "pkg.app.run") with (PyStr ("pkg.app" +:+ String "." "run")).
    rewrite (Hdot "pkg.app" "run")%string by (simpl; intuition discriminate).
    vm_compute. reflexivity.
  - change (PyStr "pkg.main") with (PyStr ("pkg" +:+ String "." "main")).
    rewrite (Hdot "pkg" "main")%string by (simpl; intuition discriminate).
    vm_compute. reflexivity.
Defined.

(** The supervisor passes its standard input on. *)
Lemma spawn_descriptors_witness :
  let ps' := snd (spawn (PyStr "pkg.app.main") (PyDict [("n"%string, PyInt 7)])
                    [0%nat] supervisor) in
  exists r0,
    fdtab (os supervisor) !! r0 = None /\
    file_of <$> fdtab (os ps') !! r0
      = Some (PipeReader (fresh (dom (pipes (os supervisor))))) /\
    file_of <$> fdtab (os ps') !! 0%nat
      = file_of <$> fdtab (os supervisor) !! 0%nat /\
    inheritable <$> fdtab (os ps') !! 0%nat = Some true.
Proof.
  intros ps'.
  destruct (spawn_descriptors (PyStr "pkg.app.main")
              (PyDict [("n"%string, PyInt 7)]) [0%nat] supervisor 4242%nat ps')
    as (r0 & Hfree & _ & _ & _ & Hr & Hfile & Hinh);
    [vm_compute; reflexivity|].
  exists r0. split; [exact Hfree|]. split; [exact Hr|]. split.
  - apply Hfile. intros <-. vm_compute in Hfree. discriminate.
  - apply Hinh; [constructor | vm_compute; eexists; reflexivity].
Defined.

Lemma spawn_launch_failure_witness :
  exists ps',
    @spawn pickle nat no_interpreter (PyStr "pkg.app.main") (PyDict []) []
      supervisor
    = (Raise (OSError None "No such file or directory"), ps') /\
    fdtab (os supervisor) !! 3%nat = None /\
    fdtab (os supervisor) !! 4%nat = None /\
    file_of <$> fdtab (os ps') !! 3%nat
      = Some (PipeReader (fresh (dom (pipes (os supervisor))))) /\
    file_of <$> fdtab (os ps') !! 4%nat
      = Some (PipeWriter (fresh (dom (pipes (os supervisor))))).
Proof.
  apply (@spawn_launch_failure pickle nat no_interpreter (PyStr "pkg.app.main")
           (PyDict []) [] supervisor 3%nat 4%nat (snd (os_pipe console))
           (OSError None "No such file or directory"));
    [vm_compute; reflexivity | constructor | reflexivity].
Defined.


Lemma spawn_main_never_returns_witness :
  spawn_main 3 worker <> (Ok PyNone, worker).
Proof. apply (spawn_main_never_returns 3 worker PyNone worker). Defined.

(** The target is an attribute that is not a function, and then a name
    without a dot. *)
Lemma spawn_main_failures_witness :
  (exists ps1, spawn_main 3 (worker_of (PyStr "pkg.app.version") (PyDict []))
               = (Raise TypeError, ps1)) /\
  (exists ps0, spawn_main 3 (worker_of (PyStr "main") (PyDict []))
               = (Raise ValueError, ps0)).
Proof.
  split.
  - eassert (_ /\ _ /\ _) as (_ & _ & Hdot).
    { eapply (spawn_main_failures (worker_of (PyStr "pkg.app.version") (PyDict []))
                3 0 true _
                [("sys.argv"%string, PyList [PyStr "serve"; PyStr "--reload"])]
                (PyStr "pkg.app.version") (PyDict []) []);
        vm_compute; reflexivity. }
    destruct (Hdot "pkg.app" "version"%string) as (_ & Hmod);
      [reflexivity | simpl; intuition discriminate |].
    eexists.
    edestruct Hmod as (_ & Hobj & _); [reflexivity|].
    apply (Hobj (PyInt 1)). vm_compute. reflexivity.
  - eassert (_ /\ _ /\ _) as (Hnone & _ & _).
    { eapply (spawn_main_failures (worker_of (PyStr "main") (PyDict []))
                3 0 true _
                [("sys.argv"%string, PyList [PyStr "serve"; PyStr "--reload"])]
                (PyStr "main") (PyDict []) []);
        vm_compute; reflexivity. }
    eexists. apply (Hnone "main"%string); [reflexivity|].
    simpl. intuition discriminate.
Defined.

(** [-O] for [optimize], and an interpreter without flags. *)
Lemma interpreter_flags_args_witness :
  In "-O"%string (args_from_interpreter_flags python) /\
  args_from_interpreter_flags (mkSys (PyList []) "python" ∅ ["error"%string])
    = ["-Werror"%string].
Proof.
  destruct (interpreter_flags_args python) as (_ & _ & Hset & _).
  destruct (interpreter_flags_args (mkSys (PyList []) "python" ∅ ["error"%string]))
    as (_ & _ & _ & Hunset).
  split.
  - apply (Hset "optimize" "O" 1%nat)%string;
      [simpl; tauto | reflexivity | lia].
  - apply Hunset. intros flag opt _. reflexivity.
Defined.

(** A state without [remote_w_handle]. *)
Lemma connection_state_roundtrip_witness :
  __setstate__ [("r_handle", 3); ("w_handle", 6); ("remote_r_handle", 5)]%string%nat
    = Raise KeyError.
Proof.
  apply (proj2 connection_state_roundtrip _ "remote_w_handle"%string);
    [simpl; tauto | reflexivity].
Defined.

(** The System process is not opened: the denied access of [OpenProcess]
    comes out of [add_child]. *)
Lemma add_child_raises_witness :
  @Windows.add_child (list Z) Z guarded (Windows.mkProcessGroup Z 1) 4 []
    = (Raise (OSError (Some 5) "Access is denied"), []).
Proof.
  apply (proj2 (add_child_raises (list Z) Z guarded
                  (Windows.mkProcessGroup Z 1) 4 [])).
  reflexivity.
Defined.
End MoreRuns.
